(** * Airdrop Journal backend: the authentication core

    A shallow embedding of the account model ([src/models/User.js]), the
    authentication gate ([middleware/auth.js]) and the authentication routes
    ([routes/auth.js], [routes/users.js]), with the properties of the
    lockout policy, the single-use tokens and the session tokens.

    Conventions.
    - Time is [Date.now()]: an integer number of milliseconds ([Z]).  Every
      function that reads the clock takes the reading as an argument; a
      handler that reads it on both sides of an [await] takes one argument
      per reading.
    - A collection is the list of its documents in natural order; [findOne]
      returns the first document that matches.
    - [undefined] / absent document paths are [None].
    - bcrypt, SHA-256 and the random generator are libraries: they are
      parameters of the development ([Section] variables).  jsonwebtoken is
      modelled by the contract of [sign] and [verify]. *)

From Stdlib Require Import ZArith List String Ascii Bool Lia DecimalString.
From Stdlib Require DecimalFacts DecimalPos Nnat.
Import ListNotations.

Open Scope string_scope.
Open Scope Z_scope.

(** ** Documents *)

Inductive Role : Type := RoleUser | RoleAdmin.

(** The paths of [userSchema] that the authentication code reads or
    writes.  [password] is the stored bcrypt digest. *)
Record User : Type := mkUser {
  _id : nat;
  email : string;
  username : option string;
  password : string;
  role : Role;
  isActive : bool;
  isEmailVerified : bool;
  emailVerificationToken : option string;
  emailVerificationExpire : option Z;
  passwordResetToken : option string;
  passwordResetExpire : option Z;
  passwordChangedAt : option Z;
  loginAttempts : option Z;
  lockUntil : option Z;
  lastLoginAt : option Z
}.

Definition Store : Type := list User.

(** [loginAttempts] has [default: 0]: a document in which the path is
    absent reads as 0. *)
Definition attempts (u : User) : Z :=
  match loginAttempts u with Some n => n | None => 0 end.

(** *** Path assignments ([$set] / [$unset] on one group of paths) *)

Definition set_lockout (a l : option Z) (u : User) : User :=
  mkUser (_id u) (email u) (username u) (password u) (role u) (isActive u)
    (isEmailVerified u) (emailVerificationToken u) (emailVerificationExpire u)
    (passwordResetToken u) (passwordResetExpire u) (passwordChangedAt u)
    a l (lastLoginAt u).

Definition set_lastLoginAt (t : option Z) (u : User) : User :=
  mkUser (_id u) (email u) (username u) (password u) (role u) (isActive u)
    (isEmailVerified u) (emailVerificationToken u) (emailVerificationExpire u)
    (passwordResetToken u) (passwordResetExpire u) (passwordChangedAt u)
    (loginAttempts u) (lockUntil u) t.

Definition set_passwordReset (tok : option string) (e : option Z) (u : User) : User :=
  mkUser (_id u) (email u) (username u) (password u) (role u) (isActive u)
    (isEmailVerified u) (emailVerificationToken u) (emailVerificationExpire u)
    tok e (passwordChangedAt u)
    (loginAttempts u) (lockUntil u) (lastLoginAt u).

Definition set_emailVerification (tok : option string) (e : option Z) (u : User) : User :=
  mkUser (_id u) (email u) (username u) (password u) (role u) (isActive u)
    (isEmailVerified u) tok e
    (passwordResetToken u) (passwordResetExpire u) (passwordChangedAt u)
    (loginAttempts u) (lockUntil u) (lastLoginAt u).

Definition set_isEmailVerified (b : bool) (u : User) : User :=
  mkUser (_id u) (email u) (username u) (password u) (role u) (isActive u)
    b (emailVerificationToken u) (emailVerificationExpire u)
    (passwordResetToken u) (passwordResetExpire u) (passwordChangedAt u)
    (loginAttempts u) (lockUntil u) (lastLoginAt u).

Definition set_password (digest : string) (changed : option Z) (u : User) : User :=
  mkUser (_id u) (email u) (username u) digest (role u) (isActive u)
    (isEmailVerified u) (emailVerificationToken u) (emailVerificationExpire u)
    (passwordResetToken u) (passwordResetExpire u) changed
    (loginAttempts u) (lockUntil u) (lastLoginAt u).

Definition set_identity (e : string) (n : option string) (active : bool) (u : User) : User :=
  mkUser (_id u) e n (password u) (role u) active
    (isEmailVerified u) (emailVerificationToken u) (emailVerificationExpire u)
    (passwordResetToken u) (passwordResetExpire u) (passwordChangedAt u)
    (loginAttempts u) (lockUntil u) (lastLoginAt u).

(** ** The collection *)

Definition findOne (q : User -> bool) (db : Store) : option User := find q db.

Definition findById (id : nat) (db : Store) : option User :=
  find (fun u => Nat.eqb (_id u) id) db.

(** [doc.updateOne(ops)] and the write of [doc.save()]: the operators [f]
    are applied to the stored document with this [_id]; the others are left
    as they are. *)
Fixpoint updateOne (id : nat) (f : User -> User) (db : Store) : Store :=
  match db with
  | [] => []
  | u :: rest =>
      if Nat.eqb (_id u) id then f u :: rest else u :: updateOne id f rest
  end.

(** [_id] is unique in a collection. *)
Fixpoint ids_unique (db : Store) : bool :=
  match db with
  | [] => true
  | u :: rest =>
      negb (existsb (fun v => Nat.eqb (_id v) (_id u)) rest) && ids_unique rest
  end.

Definition opt_string_eqb (a : option string) (b : string) : bool :=
  match a with Some s => String.eqb s b | None => false end.

(** [{ $gt: now }] on a Date path: an absent path never matches. *)
Definition date_gt (d : option Z) (now : Z) : bool :=
  match d with Some t => now <? t | None => false end.

(** [path && path < now] on a Date path. *)
Definition date_lt (d : option Z) (now : Z) : bool :=
  match d with Some t => t <? now | None => false end.

(** ** Process configuration ([process.env])

    A numeric setting is held as the result of [parseInt] on it: [None] is
    [NaN], what [parseInt] gives for a variable that is unset or not a
    number. *)
Record Env : Type := mkEnv {
  JWT_SECRET : string;
  JWT_EXPIRE : option Z;            (* seconds *)
  BCRYPT_SALT_ROUNDS : option Z;
  PASSWORD_RESET_EXPIRE : option Z  (* minutes *)
}.

(** [parseInt(process.env.BCRYPT_SALT_ROUNDS) || 12] *)
Definition saltRounds (env : Env) : Z :=
  match BCRYPT_SALT_ROUNDS env with
  | Some 0 | None => 12
  | Some n => n
  end.

(** [process.env.JWT_EXPIRE || '7d'], in seconds *)
Definition jwtExpiresIn (env : Env) : Z :=
  match JWT_EXPIRE env with
  | Some s => s
  | None => 7 * 24 * 60 * 60
  end.

(** ** Session tokens (jsonwebtoken)

    A token string is either something [verify] cannot parse or a payload
    signed with some key.  [sign] stamps [iat] with the clock in whole
    seconds and [exp] with [iat + expiresIn]; [verify] throws
    [JsonWebTokenError] on a token that is malformed or signed with another
    key and [TokenExpiredError] once the clock has reached [exp]. *)
Record JwtPayload : Type := mkJwt {
  jwt_id : nat;
  jwt_email : string;
  jwt_role : Role;
  iat : Z;
  exp : Z
}.

Inductive Token : Type :=
| Malformed (raw : string)
| Signed (key : string) (p : JwtPayload).

Inductive JwtResult : Type :=
| Decoded (p : JwtPayload)
| JsonWebTokenError
| TokenExpiredError.

Definition jwt_sign (id : nat) (e : string) (r : Role)
    (secret : string) (expiresIn now : Z) : Token :=
  Signed secret (mkJwt id e r (now / 1000) (now / 1000 + expiresIn)).

Definition jwt_verify (t : Token) (secret : string) (now : Z) : JwtResult :=
  match t with
  | Malformed _ => JsonWebTokenError
  | Signed key p =>
      if String.eqb key secret then
        if exp p <=? now / 1000 then TokenExpiredError else Decoded p
      else JsonWebTokenError
  end.

(** ** HTTP responses *)

Record Response : Type := mkResponse {
  statusCode : Z;
  status : string;
  message : string;
  token : option Token;
  data_user : option nat        (* [data.user.id], when a user is returned *)
}.

Definition json (c : Z) (s m : string) : Response := mkResponse c s m None None.

(** ** Random tokens: [crypto.randomBytes(n).toString('hex')] *)

Definition hexDigit (n : N) : ascii :=
  match n with
  | 0 => "0" | 1 => "1" | 2 => "2" | 3 => "3" | 4 => "4" | 5 => "5"
  | 6 => "6" | 7 => "7" | 8 => "8" | 9 => "9" | 10 => "a" | 11 => "b"
  | 12 => "c" | 13 => "d" | 14 => "e" | _ => "f"
  end%N%char.

Definition hexValue (c : ascii) : N :=
  (let n := N_of_ascii c in
   if n <? 58 then n - 48 else n - 87)%N.

Definition hexChars (b : Byte.byte) : ascii * ascii :=
  let n := Byte.to_N b in (hexDigit (n / 16), hexDigit (n mod 16))%N.

Definition unhexChars (c : ascii * ascii) : option Byte.byte :=
  Byte.of_N (16 * hexValue (fst c) + hexValue (snd c))%N.

Fixpoint toHex (bs : list Byte.byte) : string :=
  match bs with
  | [] => EmptyString
  | b :: rest => String (fst (hexChars b)) (String (snd (hexChars b)) (toHex rest))
  end.

(** The generator is an entropy source that is read byte by byte. *)
Definition randomBytes (n : nat) (rng : nat -> Byte.byte) : list Byte.byte :=
  map rng (seq 0 n).

(** ** A promise that may reject *)

Inductive Outcome (A : Type) : Type :=
| Returned (a : A)
| Thrown.
Arguments Returned {A} a.
Arguments Thrown {A}.

(** The gate in front of the private routes: it calls [next()] with
    [req.user] set, or it answers itself. *)
Inductive Gate : Type :=
| Next (user : User)
| Respond (r : Response).

(** The session token of a request, as the gate picks it up: the second
    word of an [Authorization] header that starts with [Bearer] (the header
    may carry no second word), and the [jwt] cookie. *)
Record Request : Type := mkRequest {
  authorization_bearer : option (option Token);
  cookies_jwt : option Token
}.

Record AuthResult : Type := mkAuthResult {
  auth_user : option User;
  reason : option string
}.

(** [doc.path = n] on a Date path: a number is cast to the Date of that
    many milliseconds; [NaN] ([None]) is no Date, its cast is refused and
    the path keeps the value it had. *)
Definition assign_date (prior n : option Z) : option Z :=
  match n with Some t => Some t | None => prior end.

Section Auth.

(** [crypto.createHash('sha256').update(s).digest('hex')] *)
Variable sha256 : string -> string.
(** [bcrypt.hash(s, rounds)] *)
Variable bcrypt_hash : string -> Z -> string.
(** [bcrypt.compare(s, digest)]; [None] when the promise rejects *)
Variable bcrypt_compare : string -> string -> option bool.

(** *** [models/User.js] *)

Definition isLocked (this : User) (now : Z) : bool :=
  date_gt (lockUntil this) now.

(** [userSchema.pre('save')].  [isModified] is [this.isModified('password')]
    and [this] holds the plaintext in [password] when it is. *)
Definition preSave (env : Env) (isModified isNew : bool) (now : Z) (this : User) : User :=
  if negb isModified then this
  else
    set_password (bcrypt_hash (password this) (saltRounds env))
      (if negb isNew then Some (now - 1000) else passwordChangedAt this)
      this.

Definition comparePassword (this : User) (candidatePassword : string) : option bool :=
  bcrypt_compare candidatePassword (password this).

Definition generateAuthToken (this : User) (env : Env) (now : Z) : Token :=
  jwt_sign (_id this) (email this) (role this) (JWT_SECRET env) (jwtExpiresIn env) now.

(** [parseInt(t / 1000, 10)] drops the fraction: it rounds towards zero. *)
Definition changedPasswordAfter (this : User) (JWTTimestamp : Z) : bool :=
  match passwordChangedAt this with
  | Some t =>
      let changedTimestamp := Z.quot t 1000 in
      JWTTimestamp <? changedTimestamp
  | None => false
  end.

(** [Date.now() + parseInt(process.env.PASSWORD_RESET_EXPIRE) * 60 * 1000];
    [None] is [NaN]. *)
Definition resetExpireValue (env : Env) (now : Z) : option Z :=
  match PASSWORD_RESET_EXPIRE env with
  | Some m => Some (now + m * 60 * 1000)
  | None => None
  end.

Definition createPasswordResetToken (env : Env) (now : Z) (rng : nat -> Byte.byte)
    (this : User) : string * User :=
  let resetToken := toHex (randomBytes 32 rng) in
  (resetToken,
   set_passwordReset (Some (sha256 resetToken))
     (assign_date (passwordResetExpire this) (resetExpireValue env now)) this).

Definition createEmailVerificationToken (now : Z) (rng : nat -> Byte.byte)
    (this : User) : string * User :=
  let verificationToken := toHex (randomBytes 32 rng) in
  (verificationToken,
   set_emailVerification (Some (sha256 verificationToken))
     (Some (now + 24 * 60 * 60 * 1000)) this).

(** [incLoginAttempts] decides on the document in memory ([this]) and
    returns the update operators, which [updateOne] applies to the stored
    document. *)
Definition incLoginAttempts (this : User) (now : Z) : User -> User :=
  if date_lt (lockUntil this) now then
    (* $unset: { lockUntil: 1 }, $set: { loginAttempts: 1 } *)
    set_lockout (Some 1) None
  else
    fun doc =>
      set_lockout
        (* $inc: { loginAttempts: 1 } *)
        (Some (attempts doc + 1))
        (if (5 <=? attempts this + 1) && negb (isLocked this now)
         then Some (now + 2 * 60 * 60 * 1000)   (* $set: { lockUntil } *)
         else lockUntil doc)
        doc.

(** [$unset: { loginAttempts: 1, lockUntil: 1 }] *)
Definition resetLoginAttempts : User -> User := set_lockout None None.

Definition byEmailActive (e : string) (u : User) : bool :=
  String.eqb (email u) e && isActive u.

(** [getAuthenticated]: [t_lock] is the clock at the lock check, [t_done]
    the clock after the password comparison. *)
Definition getAuthenticated (db : Store) (email_ password_ : string)
    (t_lock t_done : Z) : Outcome (Store * AuthResult) :=
  match findOne (byEmailActive email_) db with
  | None => Returned (db, mkAuthResult None (Some "User not found"))
  | Some user =>
      if isLocked user t_lock then
        Returned (db, mkAuthResult None
          (Some "Account temporarily locked due to too many failed login attempts"))
      else
        match comparePassword user password_ with
        | None => Thrown
        | Some true =>
            let db1 :=
              if 0 <? attempts user
              then updateOne (_id user) resetLoginAttempts db else db in
            let user' := set_lastLoginAt (Some t_done) user in
            Returned (updateOne (_id user) (set_lastLoginAt (Some t_done)) db1,
                      mkAuthResult (Some user') None)
        | Some false =>
            Returned (updateOne (_id user) (incLoginAttempts user t_done) db,
                      mkAuthResult None (Some "Invalid credentials"))
        end
  end.

(** *** [routes/auth.js] *)

Definition createSendToken (env : Env) (user : User) (code : Z) (msg : string)
    (now : Z) : Response :=
  mkResponse code "success" msg (Some (generateAuthToken user env now))
    (Some (_id user)).

Definition reason_text (r : AuthResult) : string :=
  match reason r with Some m => m | None => EmptyString end.

(** [POST /login], after the rate limiter and the validators. *)
Definition login (db : Store) (env : Env) (email_ password_ : string)
    (t_lock t_done t_sign : Z) : Store * Response :=
  match getAuthenticated db email_ password_ t_lock t_done with
  | Thrown => (db, json 500 "error" "Something went wrong during login")
  | Returned (db', result) =>
      match auth_user result with
      | None => (db', json 401 "fail" (reason_text result))
      | Some user => (db', createSendToken env user 200 "Logged in successfully" t_sign)
      end
  end.

(** [POST /forgot-password], after the rate limiter and the validators.
    [save({ validateBeforeSave: false })] writes the two reset paths. *)
Definition forgotPassword (db : Store) (env : Env) (email_ : string)
    (now : Z) (rng : nat -> Byte.byte) : Store * Response :=
  match findOne (byEmailActive email_) db with
  | None => (db, json 404 "fail" "There is no user with that email address")
  | Some user =>
      let '(resetToken, user') := createPasswordResetToken env now rng user in
      (updateOne (_id user)
         (set_passwordReset (passwordResetToken user') (passwordResetExpire user')) db,
       json 200 "success" "Password reset token sent to email!")
  end.

Definition byResetToken (hashedToken : string) (now : Z) (u : User) : bool :=
  opt_string_eqb (passwordResetToken u) hashedToken
  && date_gt (passwordResetExpire u) now
  && isActive u.

Definition byVerificationToken (hashedToken : string) (now : Z) (u : User) : bool :=
  opt_string_eqb (emailVerificationToken u) hashedToken
  && date_gt (emailVerificationExpire u) now
  && isActive u.

(** [PATCH /reset-password/:token], after the validators.  The document is
    loaded without its [password] path, so the assignment always marks it
    modified. *)
Definition resetPassword (db : Store) (env : Env) (token_ password_ : string)
    (t_find t_save t_sign : Z) : Store * Response :=
  let hashedToken := sha256 token_ in
  match findOne (byResetToken hashedToken t_find) db with
  | None => (db, json 400 "fail" "Token is invalid or has expired")
  | Some user =>
      let user1 :=
        set_passwordReset None None
          (set_password password_ (passwordChangedAt user) user) in
      let user2 := preSave env true false t_save user1 in
      (updateOne (_id user)
         (fun doc =>
            set_passwordReset None None
              (set_password (password user2) (passwordChangedAt user2) doc)) db,
       createSendToken env user2 200 "Password reset successfully" t_sign)
  end.

(** [PATCH /update-password], behind [protect]: [req_user] is [req.user].
    The document is loaded with its [password] path: assigning the string it
    already holds does not mark the path modified. *)
Definition updatePassword (db : Store) (env : Env) (req_user : User)
    (currentPassword newPassword : string) (t_save t_sign : Z) : Store * Response :=
  match findById (_id req_user) db with
  | None => (db, json 500 "error" "Something went wrong during password update")
  | Some user =>
      match comparePassword user currentPassword with
      | None => (db, json 500 "error" "Something went wrong during password update")
      | Some false => (db, json 401 "fail" "Your current password is incorrect")
      | Some true =>
          let isModified := negb (String.eqb newPassword (password user)) in
          let user1 := set_password newPassword (passwordChangedAt user) user in
          let user2 := preSave env isModified false t_save user1 in
          (updateOne (_id user)
             (set_password (password user2) (passwordChangedAt user2)) db,
           createSendToken env user2 200 "Password updated successfully" t_sign)
      end
  end.

(** [POST /verify-email/:token] *)
Definition verifyEmail (db : Store) (token_ : string) (now : Z) : Store * Response :=
  let hashedToken := sha256 token_ in
  match findOne (byVerificationToken hashedToken now) db with
  | None => (db, json 400 "fail" "Token is invalid or has expired")
  | Some user =>
      (updateOne (_id user)
         (fun doc => set_emailVerification None None (set_isEmailVerified true doc)) db,
       json 200 "success" "Email verified successfully!")
  end.

(** [POST /resend-verification], behind [protect] and its rate limiter. *)
Definition resendVerification (db : Store) (req_user : User) (now : Z)
    (rng : nat -> Byte.byte) : Store * Response :=
  if isEmailVerified req_user then
    (db, json 400 "fail" "Email is already verified")
  else
    let '(verifyToken, user') := createEmailVerificationToken now rng req_user in
    (updateOne (_id req_user)
       (set_emailVerification (emailVerificationToken user')
          (emailVerificationExpire user')) db,
     json 200 "success" "Verification email sent!").

(** *** [middleware/auth.js] *)

Definition request_token (req : Request) : option Token :=
  match authorization_bearer req with
  | Some t => t
  | None => cookies_jwt req
  end.

Definition protect (db : Store) (env : Env) (req : Request) (now : Z) : Gate :=
  (* 1) Getting token and check if it exists *)
  match request_token req with
  | None =>
      Respond (json 401 "fail" "You are not logged in! Please log in to get access.")
  | Some tok =>
      (* 2) Verification token *)
      match jwt_verify tok (JWT_SECRET env) now with
      | JsonWebTokenError =>
          Respond (json 401 "fail" "Invalid token. Please log in again!")
      | TokenExpiredError =>
          Respond (json 401 "fail" "Your token has expired! Please log in again.")
      | Decoded decoded =>
          (* 3) Check if user still exists *)
          match findById (jwt_id decoded) db with
          | None =>
              Respond (json 401 "fail"
                "The user belonging to this token does no longer exist.")
          | Some currentUser =>
              (* 4) Check if user is active *)
              if negb (isActive currentUser) then
                Respond (json 401 "fail"
                  "Your account has been deactivated. Please contact support.")
              (* 5) Check if user changed password after the token was issued *)
              else if changedPasswordAfter currentUser (iat decoded) then
                Respond (json 401 "fail"
                  "User recently changed password! Please log in again.")
              else Next currentUser
          end
      end
  end.

(** A private route: [router.verb(path, protect, ..., handler)]. *)
Definition private_route (db : Store) (env : Env) (req : Request) (now : Z)
    (handler : User -> Store * Response) : Store * Response :=
  match protect db env req now with
  | Respond r => (db, r)
  | Next user => handler user
  end.

(** *** [routes/users.js] *)

Definition deleted_name (now : Z) (name : string) : string :=
  "deleted_" ++ NilZero.string_of_int (Z.to_int now) ++ "_" ++ name.

(** [DELETE /account], behind [protect]: the account is deactivated, not
    removed. *)
Definition deleteAccount (db : Store) (req_user : User) (confirmPassword : string)
    (now : Z) : Store * Response :=
  match findById (_id req_user) db with
  | None => (db, json 500 "error" "Failed to deactivate account")
  | Some user =>
      match comparePassword user confirmPassword with
      | None => (db, json 500 "error" "Failed to deactivate account")
      | Some false => (db, json 401 "fail" "Password is incorrect")
      | Some true =>
          (updateOne (_id user)
             (set_identity (deleted_name now (email user))
                (match username user with
                 | Some n => if String.eqb n EmptyString then Some n
                             else Some (deleted_name now n)
                 | None => None
                 end) false) db,
           json 200 "success" "Account deactivated successfully")
      end
  end.

End Auth.

Arguments isLocked this now : simpl never.

(** ** Worked instance of the libraries

    A concrete hash, digest and comparison, used to run the model on
    examples.  The digest of [s] is [s] behind a bcrypt-like prefix. *)
Module Demo.

Definition sha256 (s : string) : string := "sha256:" ++ s.
Definition bcrypt_hash (s : string) (rounds : Z) : string := "$2a$" ++ s.
Definition bcrypt_compare (s digest : string) : option bool :=
  Some (String.eqb digest ("$2a$" ++ s)).

Definition env : Env := mkEnv "secret" None None (Some 10).
(** The same process with [PASSWORD_RESET_EXPIRE] left unset. *)
Definition env_unset : Env := mkEnv "secret" None None None.

Definition rng0 (i : nat) : Byte.byte := Byte.x00.
Definition rng1 (i : nat) : Byte.byte := Byte.x2a.

Definition alice : User :=
  mkUser 1 "alice@example.com" (Some "alice") "$2a$Abcdef1!" RoleUser true false
    None None None None None None None None.

Definition bob : User :=
  mkUser 2 "bob@example.com" None "$2a$Hunter2!x" RoleUser true true
    None None None None None None None None.

Definition db : Store := [alice; bob].

Definition bearer (t : Token) : Request := mkRequest (Some (Some t)) None.

End Demo.

(** ** Answers and predicates of the properties *)

(** The three reasons of a failed login, and the answers of the gate. *)

Definition msg_invalid : string := "Invalid credentials".
Definition msg_locked : string :=
  "Account temporarily locked due to too many failed login attempts".

Definition msg_deactivated : string :=
  "Your account has been deactivated. Please contact support.".
Definition msg_changed : string :=
  "User recently changed password! Please log in again.".

Definition granted (g : Gate) : bool :=
  match g with Next _ => true | Respond _ => false end.

Definition invalid_or_expired : Response :=
  json 400 "fail" "Token is invalid or has expired".

(** The lockout state of an account through its life: a new account has no
    failed attempt and no lock; a failed login runs [incLoginAttempts] (only
    reached when the account is not locked), a successful one
    [resetLoginAttempts]; every other write leaves the two lockout paths as
    they are. *)
Inductive lockout_reachable : User -> Prop :=
| reach_new (u : User) :
    loginAttempts u = None -> lockUntil u = None -> lockout_reachable u
| reach_failed (u : User) (now : Z) :
    lockout_reachable u -> isLocked u now = false ->
    lockout_reachable (incLoginAttempts u now u)
| reach_success (u : User) :
    lockout_reachable u -> lockout_reachable (resetLoginAttempts u)
| reach_other (u u' : User) :
    lockout_reachable u ->
    loginAttempts u' = loginAttempts u -> lockUntil u' = lockUntil u ->
    lockout_reachable u'.

Definition holds_reset (h : string) (u : User) : bool :=
  opt_string_eqb (passwordResetToken u) h.

Definition holds_verification (h : string) (u : User) : bool :=
  opt_string_eqb (emailVerificationToken u) h.

(** No account other than [id] stores the hash: two accounts are never
    issued the same random token. *)
Definition only_holder (holds : User -> bool) (id : nat) (db : Store) : bool :=
  forallb (fun v => Nat.eqb (_id v) id || negb (holds v)) db.

(** What a password change at [t_save], answered with a token signed at
    [t_sign], leaves behind: the account [id] carries the stamp
    [t_save - 1000]; the token of the answer passes
    [changedPasswordAfter], and the gate while it has not expired; a token
    signed two seconds or more before the save does not; a token signed
    within the last second before the save still does. *)
Definition stamped_one_second_before (env : Env) (db1 : Store) (r : Response)
    (id : nat) (t_save t_sign : Z) : Prop :=
  exists u1 fresh,
    findById id db1 = Some u1
    /\ passwordChangedAt u1 = Some (t_save - 1000)
    /\ token r = Some (Signed (JWT_SECRET env) fresh)
    /\ iat fresh = t_sign / 1000
    /\ changedPasswordAfter u1 (iat fresh) = false
    /\ (forall req now,
          request_token req = Some (Signed (JWT_SECRET env) fresh) ->
          isActive u1 = true ->
          now / 1000 < t_sign / 1000 + jwtExpiresIn env ->
          protect db1 env req now = Next u1)
    /\ (forall t0, t0 + 2000 <= t_save ->
                   changedPasswordAfter u1 (t0 / 1000) = true)
    /\ (forall t0, 0 <= t0 -> t_save <= t0 + 1000 ->
                   changedPasswordAfter u1 (t0 / 1000) = false).

(** ** Worked scenarios *)

Module LockedDemo.
(** [alice] after five failed logins at time 0: locked for two hours. *)
Definition alice_locked : User := set_lockout (Some 5) (Some 7200000) Demo.alice.
Definition db : Store := [alice_locked; Demo.bob].
End LockedDemo.

Module TokenDemo.
Import Demo.

Definition tok0 : string := toHex (randomBytes 32 rng0).
Definition tok1 : string := toHex (randomBytes 32 rng1).

(** [alice] asks for a reset token at 1000 and for another one at 2000. *)
Definition db1 : Store := fst (forgotPassword sha256 db env "alice@example.com" 1000 rng0).
Definition db2 : Store := fst (forgotPassword sha256 db1 env "alice@example.com" 2000 rng1).
Definition alice2 : User :=
  set_passwordReset (Some (sha256 tok1)) (Some 602000) alice.

(** [alice] has a verification token sent at 1000. *)
Definition dbv1 : Store := fst (resendVerification sha256 db alice 1000 rng0).
Definition alicev1 : User :=
  set_emailVerification (Some (sha256 tok0)) (Some 86401000) alice.

End TokenDemo.

Module GateDemo.
Import Demo.

(** A session token of [alice] issued at 5000.000 s. *)
Definition tok : Token := generateAuthToken alice env 5000000.
Definition payload : JwtPayload := mkJwt 1 "alice@example.com" RoleUser 5000 609800.

(** [alice] changes her password 1.5 s later ... *)
Definition db_soon : Store :=
  fst (updatePassword bcrypt_hash bcrypt_compare db env alice
         "Abcdef1!" "Newpass1!" 5001500 5001600).
(** ... or ten seconds later. *)
Definition db_late : Store :=
  fst (updatePassword bcrypt_hash bcrypt_compare db env alice
         "Abcdef1!" "Newpass1!" 5010000 5010100).

Definition alice_changed (changed : Z) : User :=
  set_password "$2a$Newpass1!" (Some changed) alice.

(** [alice] closes her account at 5001.500 s. *)
Definition db_closed : Store :=
  fst (deleteAccount bcrypt_compare db alice "Abcdef1!" 5001500).
Definition alice_closed : User :=
  set_identity "deleted_5001500_alice@example.com" (Some "deleted_5001500_alice")
    false alice.

End GateDemo.

(** ** The rest of the gate and the administrator routes

    [middleware/auth.js]: [restrictTo], [requireEmailVerification],
    [optionalAuth]; [routes/users.js]: the routes behind
    [protect, restrictTo('admin')]. *)

Definition Role_eqb (a b : Role) : bool :=
  match a, b with
  | RoleUser, RoleUser | RoleAdmin, RoleAdmin => true
  | _, _ => false
  end.

Definition set_role (r : Role) (u : User) : User :=
  mkUser (_id u) (email u) (username u) (password u) r (isActive u)
    (isEmailVerified u) (emailVerificationToken u) (emailVerificationExpire u)
    (passwordResetToken u) (passwordResetExpire u) (passwordChangedAt u)
    (loginAttempts u) (lockUntil u) (lastLoginAt u).

(** [restrictTo(...roles)]: [None] is [next()]. *)
Definition restrictTo (roles : list Role) (req_user : User) : option Response :=
  if negb (existsb (Role_eqb (role req_user)) roles) then
    Some (json 403 "fail" "You do not have permission to perform this action")
  else None.

(** [requireEmailVerification]: [None] is [next()]. *)
Definition requireEmailVerification (req_user : User) : option Response :=
  if negb (isEmailVerified req_user) then
    Some (json 403 "fail" "Please verify your email address to access this feature")
  else None.

(** [optionalAuth]: the value it leaves in [req.user]; it always calls
    [next()]. *)
Definition optionalAuth (db : Store) (env : Env) (req : Request) (now : Z)
    : option User :=
  match request_token req with
  | None => None
  | Some tok =>
      match jwt_verify tok (JWT_SECRET env) now with
      | Decoded decoded =>
          match findById (jwt_id decoded) db with
          | Some currentUser =>
              if isActive currentUser
                 && negb (changedPasswordAfter currentUser (iat decoded))
              then Some currentUser else None
          | None => None
          end
      | JsonWebTokenError | TokenExpiredError => None
      end
  end.

(** A route behind [protect, restrictTo('admin')]. *)
Definition admin_route (db : Store) (env : Env) (req : Request) (now : Z)
    (handler : User -> Store * Response) : Store * Response :=
  private_route db env req now
    (fun user =>
       match restrictTo [RoleAdmin] user with
       | Some r => (db, r)
       | None => handler user
       end).

(** [PATCH /:id/role], the handler: [findByIdAndUpdate(id, { role })]. *)
Definition updateRole (db : Store) (id : nat) (r : Role) : Store * Response :=
  match findById id db with
  | None => (db, json 404 "fail" "User not found")
  | Some _ =>
      (updateOne id (set_role r) db,
       json 200 "success" "User role updated successfully")
  end.

(** [GET /] of [routes/users.js], the paging.  [parseInt(q) || d]: a
    missing, non-numeric or zero value gives the default. *)
Definition parseIntOr (q : option Z) (d : Z) : Z :=
  match q with
  | Some 0 | None => d
  | Some n => n
  end.

(** [Math.ceil(a / b)] for a count [a] and a positive [b]. *)
Definition ceil_div (a b : Z) : Z := - ((- a) / b).

Record Pagination : Type := mkPagination {
  pg_page : Z;
  pg_limit : Z;
  pg_total : Z;
  pg_pages : Z
}.

(** [matching] is what [find(filter).sort({ createdAt: -1 })] gives; the
    store refuses a negative [skip] ([None], answered 500 by the route). *)
Definition listUsers (matching : list User) (query_page query_limit : option Z)
    : option (list User * Pagination) :=
  let page := parseIntOr query_page 1 in
  let limit := parseIntOr query_limit 10 in
  let skip := (page - 1) * limit in
  if skip <? 0 then None
  else
    let users := firstn (Z.abs_nat limit) (skipn (Z.to_nat skip) matching) in
    let total := Z.of_nat (List.length matching) in
    Some (users, mkPagination page limit total (ceil_div total limit)).

(** What [login] and the token routes are not to touch: who the account is
    and what opens it. *)
Definition credentials (u : User) : nat * string * option string * string * Role * bool :=
  (_id u, email u, username u, password u, role u, isActive u).

(** [n] logins in a row for one e-mail, each with its password and its
    three clock readings. *)
Fixpoint logins (bcrypt_compare : string -> string -> option bool)
    (db : Store) (env : Env) (e : string)
    (attempts_ : list (string * (Z * Z * Z))) : Store :=
  match attempts_ with
  | [] => db
  | (pw, (t_lock, t_done, t_sign)) :: rest =>
      logins bcrypt_compare
        (fst (login bcrypt_compare db env e pw t_lock t_done t_sign)) env e rest
  end.

(** The two facts about the lockout paths of an account that every write of
    [login] keeps. *)
Definition lock_inv (u : User) : Prop :=
  0 <= attempts u /\ (lockUntil u <> None -> 5 <= attempts u).

Module ResetDemo.
Import Demo.
(** [alice], locked until 7200000 ms, holds a reset token until 8000000. *)
Definition alice_locked_reset : User :=
  set_passwordReset (Some (sha256 TokenDemo.tok1)) (Some 8000000)
    (set_lockout (Some 5) (Some 7200000) alice).
Definition db : Store := [alice_locked_reset; bob].
End ResetDemo.

(** The users of one page of [GET /]; none when the store refuses the
    query. *)
Definition users_of_page (matching : list User) (query_page query_limit : option Z)
    : list User :=
  match listUsers matching query_page query_limit with
  | Some (users, _) => users
  | None => []
  end.

(** ** Tasks: [models/Task.js] and the routes of [routes/tasks.js] that
    change one task

    The paths of [taskSchema] that completion reads or writes, and the
    owner. *)
Module Tasks.

Record Task : Type := mkTask {
  _id : nat;
  user : nat;
  completed : bool;
  completedAt : option Z;
  dueDate : option Z
}.

Inductive Status : Type := Completed | Overdue | Pending.

(** The virtual [status]. *)
Definition status (this : Task) (now : Z) : Status :=
  if completed this then Completed
  else if date_lt (dueDate this) now then Overdue
  else Pending.

Definition set_completion (c : bool) (at_ : option Z) (t : Task) : Task :=
  mkTask (_id t) (user t) c at_ (dueDate t).

(** [taskSchema.pre('save')]; [isModified] is
    [this.isModified('completed')]. *)
Definition preSave (isModified : bool) (now : Z) (this : Task) : Task :=
  if isModified then
    if completed this
       && negb (match completedAt this with Some _ => true | None => false end)
    then set_completion (completed this) (Some now) this
    else if negb (completed this)
    then set_completion (completed this) None this
    else this
  else this.

(** [markCompleted] and [markPending], with the hook of the [save] they
    end in: the path [completed] is modified when its value changes. *)
Definition markCompleted (now : Z) (this : Task) : Task :=
  preSave (negb (Bool.eqb (completed this) true)) now
    (set_completion true (Some now) this).

Definition markPending (now : Z) (this : Task) : Task :=
  preSave (negb (Bool.eqb (completed this) false)) now
    (set_completion false None this).

(** The write of [task.save()]: the document with this [_id]. *)
Fixpoint save (t : Task) (db : list Task) : list Task :=
  match db with
  | [] => []
  | d :: rest => if Nat.eqb (_id d) (_id t) then t :: rest else d :: save t rest
  end.

Fixpoint removeFirst (q : Task -> bool) (db : list Task) : list Task :=
  match db with
  | [] => []
  | d :: rest => if q d then rest else d :: removeFirst q rest
  end.

Fixpoint ids_unique (db : list Task) : bool :=
  match db with
  | [] => true
  | d :: rest =>
      negb (existsb (fun v => Nat.eqb (_id v) (_id d)) rest) && ids_unique rest
  end.

(** [{ _id: req.params.id, user: req.user.id }] *)
Definition owned (id uid : nat) (t : Task) : bool :=
  Nat.eqb (_id t) id && Nat.eqb (user t) uid.

(** [PATCH /:id/toggle], behind [protect]: [uid] is [req.user.id]. *)
Definition toggle (db : list Task) (uid id : nat) (now : Z)
    : list Task * (Z * string) :=
  match find (owned id uid) db with
  | None => (db, (404, "Task not found"))
  | Some task =>
      let task' :=
        if completed task then markPending now task else markCompleted now task in
      (save task' db,
       (200, "Task marked as " ++ (if completed task' then "completed" else "pending")))
  end.

(** [DELETE /:id], behind [protect]: [findOneAndDelete]. *)
Definition delete (db : list Task) (uid id : nat) : list Task * (Z * string) :=
  match find (owned id uid) db with
  | None => (db, (404, "Task not found"))
  | Some _ => (removeFirst (owned id uid) db, (200, "Task deleted successfully"))
  end.

Definition of_others (uid : nat) (t : Task) : bool := negb (Nat.eqb (user t) uid).

Definition sample : list Task :=
  [mkTask 1 7 false None (Some 500); mkTask 2 8 true (Some 100) None;
   mkTask 3 7 true (Some 200) None].

End Tasks.

(** ** Default tags: [models/UserTag.js]

    A tag is kept without its [_id]; the collection has the unique index
    [{ name, userId }]. *)
Module UserTag.

Record Tag : Type := mkTag {
  name : string;
  color : string;
  userId : nat;
  isDefault : bool;
  usageCount : Z
}.

Definition same_key (a b : Tag) : bool :=
  String.eqb (name a) (name b) && Nat.eqb (userId a) (userId b).

(** [insertMany(docs, { ordered: false })] under the unique index: every
    document whose key is free is inserted, the others are reported as
    duplicate-key errors (code 11000), which [createDefaultTags] ignores. *)
Fixpoint insertMany (docs : list Tag) (db : list Tag) : list Tag :=
  match docs with
  | [] => db
  | d :: rest =>
      if existsb (same_key d) db then insertMany rest db
      else insertMany rest (db ++ [d])%list
  end.

Definition defaultTags : list (string * string) :=
  [("layer 2", "#8B5CF6"); ("ethereum", "#627EEA"); ("defi", "#FF6B35");
   ("testnet", "#10B981"); ("mainnet", "#F59E0B"); ("telegram", "#0088CC");
   ("gaming", "#8B5CF6"); ("nft", "#EC4899"); ("high priority", "#EF4444");
   ("medium priority", "#F59E0B"); ("low priority", "#6B7280");
   ("daily task", "#10B981")].

Definition createDefaultTags (uid : nat) (db : list Tag) : list Tag :=
  let tagsToCreate :=
    map (fun tag => mkTag (fst tag) (snd tag) uid true 0) defaultTags in
  insertMany tagsToCreate db.

(** The unique index holds. *)
Fixpoint keys_unique (db : list Tag) : bool :=
  match db with
  | [] => true
  | d :: rest => negb (existsb (same_key d) rest) && keys_unique rest
  end.

Definition has_tag (uid : nat) (n : string) (db : list Tag) : bool :=
  existsb (fun t => String.eqb (name t) n && Nat.eqb (userId t) uid) db.

End UserTag.

(** ** Closing an account, with the checks of the schema:
    [routes/users.js] and [models/User.js]

    [deleteAccount] above is [DELETE /account] for a [save] that goes
    through.  When a path is assigned its setters run ([lowercase] and
    [trim] on [email], [trim] on [username]); [user.save()] validates the
    assigned paths against [userSchema] and writes under the unique indexes
    on [email] and [username].  A failed validation and a duplicate key are
    both caught by the route and answered 500, with nothing written. *)
Module Closing.

Section Closing.

Variable bcrypt_compare : string -> string -> option bool.
(** [validator.isEmail], [String.prototype.toLowerCase] and
    [String.prototype.trim]. *)
Variable isEmail : string -> bool.
Variable toLowerCase : string -> string.
Variable trim : string -> string.

(** A character of the class [[a-zA-Z0-9_]]. *)
Definition username_char (c : ascii) : bool :=
  let n := nat_of_ascii c in
  ((48 <=? n) && (n <=? 57) || (65 <=? n) && (n <=? 90)
   || (97 <=? n) && (n <=? 122) || (n =? 95))%nat.

(** The validators of [username]: [minlength: 3], [maxlength: 30] and
    [match: /^[a-zA-Z0-9_]+$/]. *)
Definition username_valid (n : string) : bool :=
  (3 <=? String.length n)%nat && (String.length n <=? 30)%nat
  && forallb username_char (list_ascii_of_string n).

(** [user.email = `deleted_${Date.now()}_${user.email}`] *)
Definition new_email (user : User) (t : Z) : string :=
  trim (toLowerCase (deleted_name t (email user))).

(** [if (user.username) user.username = `deleted_${Date.now()}_${user.username}`]:
    the value assigned, if any. *)
Definition new_username (user : User) (t : Z) : option string :=
  match username user with
  | Some n =>
      if String.eqb n EmptyString then None else Some (trim (deleted_name t n))
  | None => None
  end.

(** The validation of the assigned paths: [email] is required and must
    satisfy [validator.isEmail]. *)
Definition validates (e : string) (n : option string) : bool :=
  negb (String.eqb e EmptyString) && isEmail e
  && match n with Some n => username_valid n | None => true end.

(** Another document holds the new [email] or the new [username]. *)
Definition duplicate_key (db : Store) (user : User) (e : string)
    (n : option string) : bool :=
  existsb
    (fun v =>
       negb (Nat.eqb (_id v) (_id user))
       && (String.eqb (email v) e
           || match n with
              | Some n => opt_string_eqb (username v) n
              | None => false
              end)) db.

(** [DELETE /account], behind [protect]; [t_email] and [t_username] are the
    two readings of [Date.now()]. *)
Definition closeAccount (db : Store) (req_user : User) (confirmPassword : string)
    (t_email t_username : Z) : Store * Response :=
  match findById (_id req_user) db with
  | None => (db, json 500 "error" "Failed to deactivate account")
  | Some user =>
      match comparePassword bcrypt_compare user confirmPassword with
      | None => (db, json 500 "error" "Failed to deactivate account")
      | Some false => (db, json 401 "fail" "Password is incorrect")
      | Some true =>
          let e := new_email user t_email in
          let n := new_username user t_username in
          if validates e n && negb (duplicate_key db user e n) then
            (updateOne (_id user)
               (set_identity e
                  (match n with Some n => Some n | None => username user end)
                  false) db,
             json 200 "success" "Account deactivated successfully")
          else (db, json 500 "error" "Failed to deactivate account")
      end
  end.

End Closing.

(** A worked instance: an address has an [@], and the two string methods
    on ASCII. *)
Definition demo_isEmail (s : string) : bool :=
  existsb (fun c => Ascii.eqb c "@"%char) (list_ascii_of_string s).

Definition demo_lower_char (c : ascii) : ascii :=
  let n := nat_of_ascii c in
  if ((65 <=? n) && (n <=? 90))%nat then ascii_of_nat (n + 32) else c.

Fixpoint demo_toLowerCase (s : string) : string :=
  match s with
  | EmptyString => EmptyString
  | String c rest => String (demo_lower_char c) (demo_toLowerCase rest)
  end.

Definition demo_space (c : ascii) : bool :=
  let n := nat_of_ascii c in ((n =? 32) || (9 <=? n) && (n <=? 13))%nat.

Fixpoint demo_trimStart (l : list ascii) : list ascii :=
  match l with
  | c :: rest => if demo_space c then demo_trimStart rest else l
  | [] => []
  end.

Definition demo_trim (s : string) : string :=
  string_of_list_ascii
    (rev (demo_trimStart (rev (demo_trimStart (list_ascii_of_string s))))).

Definition alexander : User :=
  mkUser 3 "alexander@example.com" (Some "alexander") "$2a$Zyxwvu9!" RoleUser
    true true None None None None None None None None.

Definition db : Store := [Demo.alice; Demo.bob; alexander].

End Closing.

(** ** Facts about the collection *)

Lemma findOne_In (q : User -> bool) (db : Store) (u : User) :
  findOne q db = Some u -> In u db /\ q u = true.
Proof. apply find_some. Qed.

Lemma findOne_none_intro (q : User -> bool) (db : Store) :
  (forall v, In v db -> q v = false) -> findOne q db = None.
Proof.
  induction db as [|a rest IH]; intros H; simpl; [reflexivity|].
  rewrite (H a (or_introl eq_refl)). apply IH.
  intros v Hv. apply H. right. exact Hv.
Qed.

Lemma ids_unique_tail (a : User) (rest : Store) :
  ids_unique (a :: rest) = true ->
  (forall v, In v rest -> Nat.eqb (_id v) (_id a) = false) /\ ids_unique rest = true.
Proof.
  simpl. intros H. apply andb_true_iff in H. destruct H as [H1 H2].
  split; [|exact H2].
  intros v Hv. apply negb_true_iff in H1.
  destruct (Nat.eqb (_id v) (_id a)) eqn:E; [|reflexivity].
  assert (existsb (fun w => Nat.eqb (_id w) (_id a)) rest = true) as C.
  { apply existsb_exists. exists v. split; assumption. }
  congruence.
Qed.

Lemma findById_of_In (db : Store) (u : User) :
  ids_unique db = true -> In u db -> findById (_id u) db = Some u.
Proof.
  unfold findById. induction db as [|a rest IH]; intros Hu Hin; [destruct Hin|].
  apply ids_unique_tail in Hu. destruct Hu as [Hrest Hu].
  simpl. destruct Hin as [->|Hin].
  - rewrite Nat.eqb_refl. reflexivity.
  - specialize (Hrest u Hin). rewrite Nat.eqb_sym in Hrest. rewrite Hrest.
    apply IH; assumption.
Qed.

Lemma findById_updateOne (id : nat) (f : User -> User) (db : Store) (u : User) :
  (forall v, _id (f v) = _id v) ->
  findById id db = Some u ->
  findById id (updateOne id f db) = Some (f u).
Proof.
  intros Hf. unfold findById.
  induction db as [|a rest IH]; simpl; [discriminate|].
  destruct (Nat.eqb (_id a) id) eqn:E; intros H.
  - injection H as <-. simpl. rewrite Hf, E. reflexivity.
  - simpl. rewrite E. apply IH. exact H.
Qed.

Lemma In_updateOne (id : nat) (f : User -> User) (db : Store) (v : User) :
  ids_unique db = true ->
  In v (updateOne id f db) ->
  (exists u, In u db /\ _id u = id /\ v = f u) \/ (In v db /\ _id v <> id).
Proof.
  induction db as [|a rest IH]; intros Hu Hin; [destruct Hin|].
  apply ids_unique_tail in Hu. destruct Hu as [Hrest Hu].
  simpl in Hin. destruct (Nat.eqb (_id a) id) eqn:E.
  - apply Nat.eqb_eq in E. destruct Hin as [<-|Hin].
    + left. exists a. split; [left; reflexivity|]. split; [exact E|reflexivity].
    + right. split; [right; exact Hin|].
      specialize (Hrest v Hin). apply Nat.eqb_neq in Hrest. congruence.
  - destruct Hin as [<-|Hin].
    + right. split; [left; reflexivity|]. apply Nat.eqb_neq. exact E.
    + destruct (IH Hu Hin) as [[u [H1 [H2 H3]]]|[H1 H2]].
      * left. exists u. split; [right; exact H1|]. split; assumption.
      * right. split; [right; exact H1|exact H2].
Qed.

(** An update that does not change what a query sees of any document
    leaves the query's answer on the same document. *)
Lemma findOne_updateOne_same (q : User -> bool) (f : User -> User) (db : Store) (u : User) :
  ids_unique db = true ->
  (forall v, q (f v) = q v) ->
  findOne q db = Some u ->
  findOne q (updateOne (_id u) f db) = Some (f u).
Proof.
  intros Hu Hq. unfold findOne.
  induction db as [|a rest IH]; simpl; [discriminate|].
  apply ids_unique_tail in Hu. destruct Hu as [Hrest Hu].
  destruct (q a) eqn:Ea; intros H.
  - injection H as <-. rewrite Nat.eqb_refl. simpl. rewrite Hq, Ea. reflexivity.
  - pose proof (find_some _ _ H) as [Hin _].
    specialize (Hrest u Hin). rewrite Nat.eqb_sym in Hrest. rewrite Hrest.
    simpl. rewrite Ea. apply IH; assumption.
Qed.

(** ** Path assignments keep [_id] and the paths of the e-mail query *)

Lemma byEmailActive_set_passwordReset e tok x v :
  byEmailActive e (set_passwordReset tok x v) = byEmailActive e v.
Proof. reflexivity. Qed.

Lemma findById_of_findOne (q : User -> bool) (db : Store) (u : User) :
  ids_unique db = true -> findOne q db = Some u -> findById (_id u) db = Some u.
Proof.
  intros Hu H. apply findById_of_In; [exact Hu|]. apply (findOne_In q). exact H.
Qed.

(** Every update of the handlers keeps [_id]: uniqueness is an invariant of
    [updateOne]. *)
Lemma ids_unique_updateOne (id : nat) (f : User -> User) (db : Store) :
  (forall v, _id (f v) = _id v) ->
  ids_unique db = true -> ids_unique (updateOne id f db) = true.
Proof.
  intros Hf. induction db as [|a rest IH]; intros Hu; [reflexivity|].
  simpl in Hu. apply andb_true_iff in Hu. destruct Hu as [H1 H2].
  simpl. destruct (Nat.eqb (_id a) id) eqn:E.
  - simpl. rewrite Hf, H1. exact H2.
  - simpl. rewrite (IH H2), andb_true_r.
    apply negb_true_iff. apply negb_true_iff in H1.
    destruct (existsb _ (updateOne id f rest)) eqn:Ex; [|reflexivity].
    apply existsb_exists in Ex. destruct Ex as [v [Hv Ev]].
    apply In_updateOne in Hv; [|exact H2].
    assert (existsb (fun w => Nat.eqb (_id w) (_id a)) rest = true) as C.
    { apply existsb_exists.
      destruct Hv as [[u [Hin [Hid ->]]]|[Hin _]].
      - exists u. split; [exact Hin|]. rewrite Hf in Ev. exact Ev.
      - exists v. split; assumption. }
    congruence.
Qed.

(** ** forgotPassword *)

Lemma forgotPassword_not_found sha256 db env e now rng :
  findOne (byEmailActive e) db = None ->
  forgotPassword sha256 db env e now rng
  = (db, json 404 "fail" "There is no user with that email address").
Proof. intros H. unfold forgotPassword. rewrite H. reflexivity. Qed.

(** C1, as the route is written.  With the reset lifetime configured to [m]
    minutes, [forgotPassword] answers 200 exactly when an active account
    with the e-mail exists, and it then stores the SHA-256 hash of the new
    token and the expiry [now + m] minutes on that account; for an e-mail
    with no active account it answers 404 and leaves the collection as it
    is. *)
Theorem forgotPassword_known_account :
  forall sha256 (db : Store) (env : Env) (e : string) (now m : Z)
         (rng : nat -> Byte.byte),
    ids_unique db = true ->
    PASSWORD_RESET_EXPIRE env = Some m ->
    match findOne (byEmailActive e) db with
    | Some u =>
        snd (forgotPassword sha256 db env e now rng)
        = json 200 "success" "Password reset token sent to email!"
        /\ findById (_id u) (fst (forgotPassword sha256 db env e now rng))
           = Some (set_passwordReset
                     (Some (sha256 (toHex (randomBytes 32 rng))))
                     (Some (now + m * 60 * 1000)) u)
    | None =>
        forgotPassword sha256 db env e now rng
        = (db, json 404 "fail" "There is no user with that email address")
    end.
Proof.
  intros sha256 db env e now m rng Hu Hm.
  destruct (findOne (byEmailActive e) db) as [u|] eqn:F.
  - unfold forgotPassword. rewrite F. cbn [createPasswordResetToken fst snd].
    split; [reflexivity|].
    unfold resetExpireValue. rewrite Hm. cbn [assign_date].
    rewrite (findById_updateOne (_id u) _ db u); [reflexivity|reflexivity|].
    apply (findById_of_findOne (byEmailActive e)); assumption.
  - apply forgotPassword_not_found. exact F.
Qed.

Lemma forgotPassword_known_account_witness :
  ids_unique Demo.db = true
  /\ PASSWORD_RESET_EXPIRE Demo.env = Some 10
  /\ snd (forgotPassword Demo.sha256 Demo.db Demo.env "alice@example.com" 1000 Demo.rng1)
     = json 200 "success" "Password reset token sent to email!"
  /\ findById 1 (fst (forgotPassword Demo.sha256 Demo.db Demo.env
                        "alice@example.com" 1000 Demo.rng1))
     = Some (set_passwordReset
               (Some (Demo.sha256 (toHex (randomBytes 32 Demo.rng1))))
               (Some 601000) Demo.alice).
Proof.
  split; [reflexivity|]. split; [reflexivity|].
  exact (forgotPassword_known_account Demo.sha256 Demo.db Demo.env
           "alice@example.com" 1000 10 Demo.rng1 eq_refl eq_refl).
Defined.

(** C1 as stated fails: an e-mail that no account has is answered 404, not
    200, so the answer tells whether the account exists. *)
Lemma forgotPassword_unknown_email_is_404 :
  statusCode (snd (forgotPassword Demo.sha256 Demo.db Demo.env
                     "nobody@example.com" 1000 Demo.rng1)) = 404
  /\ statusCode (snd (forgotPassword Demo.sha256 Demo.db Demo.env
                        "alice@example.com" 1000 Demo.rng1)) = 200.
Proof. split; reflexivity. Qed.

(** ** login *)




(** ** The lockout policy *)

(** A lock is only ever held together with at least five counted failures. *)
Lemma lockout_reachable_inv (u : User) :
  lockout_reachable u -> 0 <= attempts u /\ (lockUntil u <> None -> 5 <= attempts u).
Proof.
  induction 1 as [u Ha Hl|u now _ [IH0 IH] Hlock|u _ _|u u' _ IH Ha Hl].
  - unfold attempts. rewrite Ha, Hl. split; [lia|congruence].
  - unfold incLoginAttempts.
    destruct (date_lt (lockUntil u) now).
    + cbn. split; [lia|congruence].
    + cbn [set_lockout attempts loginAttempts lockUntil]. rewrite Hlock.
      fold (attempts u). split; [lia|].
      destruct (5 <=? attempts u + 1) eqn:E; cbn [andb negb].
      * intros _. apply Z.leb_le in E. lia.
      * intros Hn. specialize (IH Hn). lia.
  - cbn. split; [lia|congruence].
  - unfold attempts in *. rewrite Ha, Hl. exact IH.
Qed.

Lemma Forall_updateOne (P : User -> Prop) (f : User -> User) (db : Store) (u : User) :
  ids_unique db = true -> In u db ->
  Forall P db -> P (f u) -> Forall P (updateOne (_id u) f db).
Proof.
  induction db as [|a rest IH]; intros Hu Hin HP Hf; [constructor|].
  apply ids_unique_tail in Hu. destruct Hu as [Hrest Hu].
  inversion HP as [|? ? Pa Prest]; subst.
  simpl. destruct Hin as [->|Hin].
  - rewrite Nat.eqb_refl. constructor; assumption.
  - specialize (Hrest u Hin). rewrite Nat.eqb_sym in Hrest. rewrite Hrest.
    constructor; [exact Pa|]. apply IH; assumption.
Qed.

(** [login] keeps every account of the collection within the lockout
    policy, whatever its outcome. *)
Lemma login_preserves_lockout_reachable bcrypt_compare (db : Store) (env : Env)
    (e pw : string) (t_lock t_done t_sign : Z) :
  ids_unique db = true ->
  t_lock <= t_done ->
  Forall lockout_reachable db ->
  Forall lockout_reachable
    (fst (login bcrypt_compare db env e pw t_lock t_done t_sign)).
Proof.
  intros Hu Ht HP. unfold login, getAuthenticated, comparePassword.
  destruct (findOne (byEmailActive e) db) as [u|] eqn:F; [|exact HP].
  pose proof (findOne_In _ _ _ F) as [Hin _].
  assert (lockout_reachable u) as Ru by (rewrite Forall_forall in HP; auto).
  destruct (isLocked u t_lock) eqn:HL; [exact HP|].
  destruct (bcrypt_compare pw (password u)) as [[|]|]; cbn [auth_user fst snd];
    [| |exact HP].
  - (* the password matches *)
    assert (Forall lockout_reachable
              (if 0 <? attempts u
               then updateOne (_id u) resetLoginAttempts db else db)) as H1.
    { destruct (0 <? attempts u); [|exact HP].
      apply Forall_updateOne; try assumption. apply reach_success. exact Ru. }
    destruct (0 <? attempts u).
    + replace (_id u) with (_id (resetLoginAttempts u)) at 1 by reflexivity.
      apply Forall_updateOne.
      * apply ids_unique_updateOne; [reflexivity|exact Hu].
      * pose proof (findById_of_In db u Hu Hin) as Fi.
        apply (findById_updateOne (_id u) resetLoginAttempts) in Fi;
          [|reflexivity].
        unfold findById in Fi. apply find_some in Fi. exact (proj1 Fi).
      * exact H1.
      * apply (reach_other (resetLoginAttempts u)); [|reflexivity|reflexivity].
        apply reach_success. exact Ru.
    + apply Forall_updateOne; try assumption.
      apply (reach_other u); [exact Ru|reflexivity|reflexivity].
  - (* the password does not match *)
    apply Forall_updateOne; try assumption.
    apply reach_failed; [exact Ru|].
    unfold isLocked, date_gt in *. destruct (lockUntil u) as [l|]; [|reflexivity].
    apply Z.ltb_ge. apply Z.ltb_ge in HL. lia.
Qed.

(** C3.  For an account whose lockout state comes from the policy: while
    [lockUntil] is in the future a login is answered
    [Account temporarily locked ...] whatever the password and whatever the
    password comparison would say, and nothing is written; at or after
    [lockUntil] a login with the correct password succeeds, and the stored
    account then has no failed attempt and no [lockUntil]. *)
Theorem locked_login_rejected_then_recovers :
  forall (db : Store) (env : Env) (e : string) (u : User) (l : Z),
    ids_unique db = true ->
    findOne (byEmailActive e) db = Some u ->
    lockout_reachable u ->
    lockUntil u = Some l ->
    (forall bcrypt_compare pw t_lock t_done t_sign,
        t_lock < l ->
        login bcrypt_compare db env e pw t_lock t_done t_sign
        = (db, json 401 "fail" msg_locked))
    /\
    (forall bcrypt_compare pw t_lock t_done t_sign,
        l <= t_lock ->
        bcrypt_compare pw (password u) = Some true ->
        snd (login bcrypt_compare db env e pw t_lock t_done t_sign)
        = createSendToken env (set_lastLoginAt (Some t_done) u) 200
            "Logged in successfully" t_sign
        /\ exists u',
            findById (_id u) (fst (login bcrypt_compare db env e pw t_lock t_done t_sign))
            = Some u'
            /\ attempts u' = 0 /\ loginAttempts u' = None /\ lockUntil u' = None).
Proof.
  intros db env e u l Hu F Hr Hl.
  assert (0 < attempts u) as Hpos.
  { destruct (lockout_reachable_inv u Hr) as [_ H5].
    assert (5 <= attempts u) by (apply H5; congruence). lia. }
  split.
  - intros cmp pw t_lock t_done t_sign Hlt.
    unfold login, getAuthenticated. rewrite F.
    unfold isLocked, date_gt. rewrite Hl.
    replace (t_lock <? l) with true by (symmetry; apply Z.ltb_lt; exact Hlt).
    reflexivity.
  - intros cmp pw t_lock t_done t_sign Hge Hc.
    unfold login, getAuthenticated, comparePassword. rewrite F.
    unfold isLocked, date_gt. rewrite Hl.
    replace (t_lock <? l) with false by (symmetry; apply Z.ltb_ge; exact Hge).
    rewrite Hc.
    replace (0 <? attempts u) with true by (symmetry; apply Z.ltb_lt; exact Hpos).
    cbn [auth_user fst snd]. split; [reflexivity|].
    exists (set_lastLoginAt (Some t_done) (resetLoginAttempts u)).
    split; [|cbn; repeat split; reflexivity].
    apply findById_updateOne; [reflexivity|].
    apply findById_updateOne; [reflexivity|].
    apply (findById_of_findOne (byEmailActive e)); assumption.
Qed.

(** Five failed logins of [alice] at time 0 lead to [alice_locked]. *)
Lemma alice_locked_reachable : lockout_reachable LockedDemo.alice_locked.
Proof.
  pose (a := fun n l => set_lockout (Some n) l Demo.alice).
  assert (lockout_reachable (a 1 None)) as R1
    by (apply (reach_failed Demo.alice 0); [apply reach_new|]; reflexivity).
  assert (lockout_reachable (a 2 None)) as R2
    by (apply (reach_failed (a 1 None) 0); [exact R1|reflexivity]).
  assert (lockout_reachable (a 3 None)) as R3
    by (apply (reach_failed (a 2 None) 0); [exact R2|reflexivity]).
  assert (lockout_reachable (a 4 None)) as R4
    by (apply (reach_failed (a 3 None) 0); [exact R3|reflexivity]).
  apply (reach_failed (a 4 None) 0); [exact R4|reflexivity].
Defined.

Lemma locked_login_rejected_then_recovers_witness :
  (* the correct password one second before the lock ends *)
  login Demo.bcrypt_compare LockedDemo.db Demo.env "alice@example.com" "Abcdef1!"
    7199000 7199100 7199100
  = (LockedDemo.db, json 401 "fail" msg_locked)
  (* and exactly when it ends *)
  /\ statusCode (snd (login Demo.bcrypt_compare LockedDemo.db Demo.env
                        "alice@example.com" "Abcdef1!" 7200000 7200100 7200100)) = 200
  /\ exists u',
      findById 1 (fst (login Demo.bcrypt_compare LockedDemo.db Demo.env
                         "alice@example.com" "Abcdef1!" 7200000 7200100 7200100))
      = Some u'
      /\ attempts u' = 0 /\ loginAttempts u' = None /\ lockUntil u' = None.
Proof.
  destruct (locked_login_rejected_then_recovers LockedDemo.db Demo.env
              "alice@example.com" LockedDemo.alice_locked 7200000
              eq_refl eq_refl alice_locked_reachable eq_refl) as [A B].
  split.
  - apply A. lia.
  - destruct (B Demo.bcrypt_compare "Abcdef1!" 7200000 7200100 7200100)
      as [R S]; [lia|reflexivity|].
    split; [rewrite R; reflexivity|exact S].
Defined.



(** In [login] the transition only runs on an account that is not locked,
    where the guard on [isLocked] never holds the lock back: a login failed
    on the password leaves the account as the policy says. *)
Lemma login_wrong_password_transition :
  forall bcrypt_compare (db : Store) (env : Env) (e pw : string) (u : User)
         (t_lock t_done t_sign : Z),
    ids_unique db = true ->
    findOne (byEmailActive e) db = Some u ->
    isLocked u t_lock = false ->
    t_lock <= t_done ->
    bcrypt_compare pw (password u) = Some false ->
    snd (login bcrypt_compare db env e pw t_lock t_done t_sign)
    = json 401 "fail" msg_invalid
    /\ findById (_id u) (fst (login bcrypt_compare db env e pw t_lock t_done t_sign))
       = Some (if date_lt (lockUntil u) t_done
               then set_lockout (Some 1) None u
               else set_lockout (Some (attempts u + 1))
                      (if 5 <=? attempts u + 1
                       then Some (t_done + 2 * 60 * 60 * 1000)
                       else lockUntil u) u).
Proof.
  intros cmp db env e pw u t_lock t_done t_sign Hu F HL Ht Hc.
  unfold login, getAuthenticated, comparePassword. rewrite F, HL, Hc.
  cbn [auth_user fst snd]. split; [reflexivity|].
  rewrite (findById_updateOne (_id u) _ db u).
  - f_equal. unfold incLoginAttempts.
    destruct (date_lt (lockUntil u) t_done); [reflexivity|].
    assert (isLocked u t_done = false) as HL'.
    { unfold isLocked, date_gt in *. destruct (lockUntil u) as [l|]; [|reflexivity].
      apply Z.ltb_ge. apply Z.ltb_ge in HL. lia. }
    rewrite HL'. cbn [negb]. rewrite andb_true_r. reflexivity.
  - intros v. unfold incLoginAttempts.
    destruct (date_lt (lockUntil u) t_done); reflexivity.
  - apply (findById_of_findOne (byEmailActive e)); assumption.
Qed.

(** ** Single-use tokens *)

Lemma findOne_none_after_update (holds q : User -> bool) (id : nat)
    (f : User -> User) (db : Store) :
  ids_unique db = true ->
  only_holder holds id db = true ->
  (forall v, holds (f v) = false) ->
  (forall v, q v = true -> holds v = true) ->
  findOne q (updateOne id f db) = None.
Proof.
  intros Hu Ho Hf Hq. apply findOne_none_intro. intros v Hv.
  assert (holds v = false) as Hh.
  { apply In_updateOne in Hv; [|exact Hu].
    destruct Hv as [[u [_ [_ ->]]]|[Hin Hid]]; [apply Hf|].
    unfold only_holder in Ho. rewrite forallb_forall in Ho.
    specialize (Ho v Hin). apply Nat.eqb_neq in Hid. rewrite Hid in Ho.
    cbn [orb] in Ho. apply negb_true_iff. exact Ho. }
  destruct (q v) eqn:E; [|reflexivity].
  rewrite (Hq v E) in Hh. discriminate.
Qed.

Lemma byResetToken_holds h t v : byResetToken h t v = true -> holds_reset h v = true.
Proof.
  unfold byResetToken, holds_reset. intros H.
  apply andb_true_iff in H. destruct H as [H _].
  apply andb_true_iff in H. destruct H as [H _]. exact H.
Qed.

Lemma byVerificationToken_holds h t v :
  byVerificationToken h t v = true -> holds_verification h v = true.
Proof.
  unfold byVerificationToken, holds_verification. intros H.
  apply andb_true_iff in H. destruct H as [H _].
  apply andb_true_iff in H. destruct H as [H _]. exact H.
Qed.

Lemma only_holder_updateOne (holds : User -> bool) (id : nat) (f : User -> User)
    (db : Store) :
  (forall v, _id (f v) = _id v) ->
  only_holder holds id db = true ->
  only_holder holds id (updateOne id f db) = true.
Proof.
  intros Hf. unfold only_holder.
  induction db as [|a rest IH]; intros H; [reflexivity|].
  simpl in H. apply andb_true_iff in H. destruct H as [Ha Hrest].
  simpl. destruct (Nat.eqb (_id a) id) eqn:E.
  - simpl. rewrite Hf, E, Hrest. reflexivity.
  - simpl. rewrite E in *. rewrite Ha, (IH Hrest). reflexivity.
Qed.

Section Tokens.

Variable sha256 : string -> string.
Variable bcrypt_hash : string -> Z -> string.

(** A second [forgotPassword] replaces the hash and the expiry of the
    account, and the plaintext of the earlier token is refused. *)
Lemma forgotPassword_overwrites (db : Store) (env : Env) (e old pw : string)
    (u : User) (now m : Z) (rng : nat -> Byte.byte) :
  ids_unique db = true ->
  PASSWORD_RESET_EXPIRE env = Some m ->
  findOne (byEmailActive e) db = Some u ->
  sha256 old <> sha256 (toHex (randomBytes 32 rng)) ->
  only_holder (holds_reset (sha256 old)) (_id u) db = true ->
  let db1 := fst (forgotPassword sha256 db env e now rng) in
  findById (_id u) db1
  = Some (set_passwordReset (Some (sha256 (toHex (randomBytes 32 rng))))
            (Some (now + m * 60 * 1000)) u)
  /\ forall t_find t_save t_sign,
      resetPassword sha256 bcrypt_hash db1 env old pw t_find t_save t_sign
      = (db1, invalid_or_expired).
Proof.
  intros Hu Hm F Hne Ho db1. subst db1.
  unfold forgotPassword. rewrite F. cbn [createPasswordResetToken fst snd].
  unfold resetExpireValue. rewrite Hm. cbn [assign_date]. split.
  - rewrite (findById_updateOne (_id u) _ db u); [reflexivity|reflexivity|].
    apply (findById_of_findOne (byEmailActive e)); assumption.
  - intros t_find t_save t_sign. unfold resetPassword.
    rewrite (findOne_none_after_update (holds_reset (sha256 old))); try assumption.
    + reflexivity.
    + intros v. unfold holds_reset, set_passwordReset, opt_string_eqb.
      cbn [passwordResetToken]. apply String.eqb_neq.
      intros E. apply Hne. symmetry. exact E.
    + intros v. apply byResetToken_holds.
Qed.




(** The scenario of two requests in a row: once a second reset token is
    issued to the account, the first one is refused. *)
Lemma second_reset_token_refuses_first (db : Store) (env : Env) (e pw : string)
    (u : User) (m now1 now2 : Z) (rng1 rng2 : nat -> Byte.byte) :
  ids_unique db = true ->
  PASSWORD_RESET_EXPIRE env = Some m ->
  findOne (byEmailActive e) db = Some u ->
  sha256 (toHex (randomBytes 32 rng1)) <> sha256 (toHex (randomBytes 32 rng2)) ->
  only_holder (holds_reset (sha256 (toHex (randomBytes 32 rng1)))) (_id u) db = true ->
  let db1 := fst (forgotPassword sha256 db env e now1 rng1) in
  let db2 := fst (forgotPassword sha256 db1 env e now2 rng2) in
  forall t_find t_save t_sign,
    resetPassword sha256 bcrypt_hash db2 env (toHex (randomBytes 32 rng1)) pw
      t_find t_save t_sign
    = (db2, invalid_or_expired).
Proof.
  intros Hu Hm F Hne Ho db1 db2.
  pose (u1 := set_passwordReset (Some (sha256 (toHex (randomBytes 32 rng1))))
                (Some (now1 + m * 60 * 1000)) u).
  assert (db1 = updateOne (_id u)
                  (set_passwordReset (Some (sha256 (toHex (randomBytes 32 rng1))))
                     (Some (now1 + m * 60 * 1000))) db) as E1.
  { subst db1. unfold forgotPassword. rewrite F.
    cbn [createPasswordResetToken fst snd]. unfold resetExpireValue.
    rewrite Hm. reflexivity. }
  assert (findOne (byEmailActive e) db1 = Some u1) as F1.
  { rewrite E1. apply findOne_updateOne_same; try assumption.
    intros v. apply byEmailActive_set_passwordReset. }
  assert (ids_unique db1 = true) as Hu1.
  { rewrite E1. apply ids_unique_updateOne; [reflexivity|exact Hu]. }
  assert (only_holder (holds_reset (sha256 (toHex (randomBytes 32 rng1))))
            (_id u1) db1 = true) as Ho1.
  { rewrite E1. apply only_holder_updateOne; [reflexivity|exact Ho]. }
  exact (proj2 (forgotPassword_overwrites db1 env e (toHex (randomBytes 32 rng1))
                  pw u1 now2 m rng2 Hu1 Hm F1 Hne Ho1)).
Qed.

End Tokens.



(** ** The authentication gate *)

(** The gate up to its step 4, for a token that [verify] accepts. *)
Lemma protect_verified (db : Store) (env : Env) (req : Request) (now : Z)
    (tok : Token) (p : JwtPayload) (u : User) :
  request_token req = Some tok ->
  jwt_verify tok (JWT_SECRET env) now = Decoded p ->
  findById (jwt_id p) db = Some u ->
  protect db env req now
  = if negb (isActive u) then Respond (json 401 "fail" msg_deactivated)
    else if changedPasswordAfter u (iat p) then Respond (json 401 "fail" msg_changed)
    else Next u.
Proof.
  intros Ht Hv Hf. unfold protect. rewrite Ht, Hv, Hf. reflexivity.
Qed.

(** C6, as the gate compares.  For a token that [verify] accepts and an
    active account with [passwordChangedAt] set, the gate answers 401
    exactly when the token's [iat], in seconds, is less than
    [passwordChangedAt] cut down to whole seconds; a token of the same
    second or a later one passes. *)
Theorem protect_password_changed_check :
  forall (db : Store) (env : Env) (req : Request) (now : Z)
         (tok : Token) (p : JwtPayload) (u : User) (changed : Z),
    request_token req = Some tok ->
    jwt_verify tok (JWT_SECRET env) now = Decoded p ->
    findById (jwt_id p) db = Some u ->
    isActive u = true ->
    passwordChangedAt u = Some changed ->
    (iat p < Z.quot changed 1000 ->
       protect db env req now = Respond (json 401 "fail" msg_changed)
       /\ forall handler,
           private_route db env req now handler = (db, json 401 "fail" msg_changed))
    /\ (Z.quot changed 1000 <= iat p -> protect db env req now = Next u).
Proof.
  intros db env req now tok p u changed Ht Hv Hf Ha Hc.
  pose proof (protect_verified db env req now tok p u Ht Hv Hf) as P.
  rewrite Ha in P. cbn [negb] in P.
  unfold changedPasswordAfter in P. rewrite Hc in P. cbv zeta in P.
  split.
  - intros Hlt. apply Z.ltb_lt in Hlt. rewrite Hlt in P.
    split; [exact P|]. intros handler. unfold private_route. rewrite P. reflexivity.
  - intros Hge. apply Z.ltb_ge in Hge. rewrite Hge in P. exact P.
Qed.

Lemma protect_password_changed_check_witness :
  protect GateDemo.db_late Demo.env (Demo.bearer GateDemo.tok) 5020000
  = Respond (json 401 "fail" msg_changed)
  /\ protect GateDemo.db_soon Demo.env (Demo.bearer GateDemo.tok) 5020000
     = Next (GateDemo.alice_changed 5000500).
Proof.
  split.
  - apply (protect_password_changed_check GateDemo.db_late Demo.env
             (Demo.bearer GateDemo.tok) 5020000 GateDemo.tok GateDemo.payload
             (GateDemo.alice_changed 5009000) 5009000
             eq_refl eq_refl eq_refl eq_refl eq_refl).
    vm_compute. reflexivity.
  - apply (protect_password_changed_check GateDemo.db_soon Demo.env
             (Demo.bearer GateDemo.tok) 5020000 GateDemo.tok GateDemo.payload
             (GateDemo.alice_changed 5000500) 5000500
             eq_refl eq_refl eq_refl eq_refl eq_refl).
    vm_compute. discriminate.
Defined.

(** C6 as stated fails: a token issued at 5000.000 s is still let through
    after the password was changed at 5001.500 s, although its signature is
    valid, it has not expired, and it was issued before the change, and
    before the recorded [passwordChangedAt] as well. *)
Lemma token_issued_before_change_passes_gate :
  (* the token was issued at 5000000 ms and is valid at 5020000 ms *)
  jwt_verify GateDemo.tok (JWT_SECRET Demo.env) 5020000 = Decoded GateDemo.payload
  (* the password was changed afterwards, at 5001500 ms *)
  /\ findById 1 GateDemo.db_soon = Some (GateDemo.alice_changed 5000500)
  /\ iat GateDemo.payload * 1000 < 5000500 < 5001500
  (* and the gate lets the token through *)
  /\ granted (protect GateDemo.db_soon Demo.env (Demo.bearer GateDemo.tok) 5020000)
     = true.
Proof. repeat split; vm_compute; reflexivity. Qed.

(** C9.  A request whose token [verify] accepts, for an account with
    [isActive] false, is answered 401 by the gate; the handler of a private
    route is not run for it, and nothing is written. *)
Theorem protect_rejects_deactivated_account :
  forall (db : Store) (env : Env) (req : Request) (now : Z)
         (tok : Token) (p : JwtPayload) (u : User),
    request_token req = Some tok ->
    jwt_verify tok (JWT_SECRET env) now = Decoded p ->
    findById (jwt_id p) db = Some u ->
    isActive u = false ->
    protect db env req now = Respond (json 401 "fail" msg_deactivated)
    /\ forall handler,
        private_route db env req now handler = (db, json 401 "fail" msg_deactivated).
Proof.
  intros db env req now tok p u Ht Hv Hf Ha.
  pose proof (protect_verified db env req now tok p u Ht Hv Hf) as P.
  rewrite Ha in P. cbn [negb] in P.
  split; [exact P|].
  intros handler. unfold private_route. rewrite P. reflexivity.
Qed.

Lemma protect_rejects_deactivated_account_witness :
  findById 1 GateDemo.db_closed = Some GateDemo.alice_closed
  /\ protect GateDemo.db_closed Demo.env (Demo.bearer GateDemo.tok) 5020000
     = Respond (json 401 "fail" msg_deactivated)
  /\ private_route GateDemo.db_closed Demo.env (Demo.bearer GateDemo.tok) 5020000
       (fun user =>
          updatePassword Demo.bcrypt_hash Demo.bcrypt_compare GateDemo.db_closed
            Demo.env user "Abcdef1!" "Newpass1!" 5020000 5020100)
     = (GateDemo.db_closed, json 401 "fail" msg_deactivated).
Proof.
  split; [reflexivity|].
  destruct (protect_rejects_deactivated_account GateDemo.db_closed Demo.env
              (Demo.bearer GateDemo.tok) 5020000 GateDemo.tok GateDemo.payload
              GateDemo.alice_closed eq_refl eq_refl eq_refl eq_refl) as [A B].
  split; [exact A|apply B].
Defined.

(** ** [passwordChangedAt] and the tokens around a password change *)

Lemma stamp_accepts_later (t_save t_sign : Z) :
  t_save <= t_sign -> (t_sign / 1000 <? Z.quot (t_save - 1000) 1000) = false.
Proof.
  intros H. apply Z.ltb_ge. Z.to_euclidean_division_equations. lia.
Qed.

Lemma stamp_rejects_two_seconds_older (t0 t_save : Z) :
  t0 + 2000 <= t_save -> (t0 / 1000 <? Z.quot (t_save - 1000) 1000) = true.
Proof.
  intros H. apply Z.ltb_lt. Z.to_euclidean_division_equations. lia.
Qed.

Lemma stamp_accepts_last_second (t0 t_save : Z) :
  0 <= t0 -> t_save <= t0 + 1000 ->
  (t0 / 1000 <? Z.quot (t_save - 1000) 1000) = false.
Proof.
  intros H0 H. apply Z.ltb_ge. Z.to_euclidean_division_equations. lia.
Qed.

Lemma stamped_intro (env : Env) (db1 : Store) (r : Response)
    (t_save t_sign : Z) (u1 u2 : User) :
  t_save <= t_sign ->
  findById (_id u2) db1 = Some u1 ->
  passwordChangedAt u1 = Some (t_save - 1000) ->
  token r = Some (generateAuthToken u2 env t_sign) ->
  stamped_one_second_before env db1 r (_id u2) t_save t_sign.
Proof.
  intros Ht Hf Hc Hr.
  assert (changedPasswordAfter u1 (t_sign / 1000) = false) as Hfresh.
  { unfold changedPasswordAfter. rewrite Hc. cbv zeta.
    apply stamp_accepts_later. exact Ht. }
  pose (fresh := mkJwt (_id u2) (email u2) (role u2) (t_sign / 1000)
                    (t_sign / 1000 + jwtExpiresIn env)).
  exists u1, fresh.
  split; [exact Hf|]. split; [exact Hc|]. split; [exact Hr|].
  split; [reflexivity|]. split; [exact Hfresh|]. split; [|split].
  - intros req now Hreq Ha Hexp.
    rewrite (protect_verified db1 env req now (Signed (JWT_SECRET env) fresh)
               fresh u1 Hreq); [| |exact Hf].
    + rewrite Ha. cbn [negb iat fresh]. rewrite Hfresh. reflexivity.
    + unfold jwt_verify. rewrite String.eqb_refl. cbn [exp fresh].
      replace (t_sign / 1000 + jwtExpiresIn env <=? now / 1000) with false;
        [reflexivity|].
      symmetry. apply Z.leb_gt. exact Hexp.
  - intros t0. unfold changedPasswordAfter. rewrite Hc. cbv zeta.
    apply stamp_rejects_two_seconds_older.
  - intros t0. unfold changedPasswordAfter. rewrite Hc. cbv zeta.
    apply stamp_accepts_last_second.
Qed.

(** C10, as the hook stamps.  A password reset, and a password update that
    assigns a new string, record [passwordChangedAt] as the save time less
    one second.  The token of the same answer, signed at or after the save,
    passes [changedPasswordAfter] and, until it expires, the gate; every
    token signed two seconds or more before the save fails the check; a
    token signed within the last second before the save still passes it. *)
Theorem password_change_stamp :
  forall sha256 bcrypt_hash bcrypt_compare (db : Store) (env : Env)
         (t_save t_sign : Z),
    ids_unique db = true ->
    t_save <= t_sign ->
    (forall tok pw u t_find,
        findOne (byResetToken (sha256 tok) t_find) db = Some u ->
        let r := resetPassword sha256 bcrypt_hash db env tok pw t_find t_save t_sign in
        statusCode (snd r) = 200
        /\ stamped_one_second_before env (fst r) (snd r) (_id u) t_save t_sign)
    /\ (forall req_user u currentPassword newPassword,
        findById (_id req_user) db = Some u ->
        bcrypt_compare currentPassword (password u) = Some true ->
        newPassword <> password u ->
        let r := updatePassword bcrypt_hash bcrypt_compare db env req_user
                   currentPassword newPassword t_save t_sign in
        statusCode (snd r) = 200
        /\ stamped_one_second_before env (fst r) (snd r) (_id u) t_save t_sign).
Proof.
  intros sha256 bcrypt_hash bcrypt_compare db env t_save t_sign Hu Ht. split.
  - intros tok pw u t_find F r. subst r.
    unfold resetPassword. rewrite F. cbn [fst snd]. split; [reflexivity|].
    eapply (stamped_intro env _ _ t_save t_sign _ u); [exact Ht| | |].
    + apply findById_updateOne; [reflexivity|].
      apply (findById_of_findOne (byResetToken (sha256 tok) t_find)); assumption.
    + reflexivity.
    + reflexivity.
  - intros req_user u cur new F Hc Hne r. subst r.
    assert (_id u = _id req_user) as Hid.
    { unfold findById in F. apply find_some in F. destruct F as [_ F].
      apply Nat.eqb_eq in F. exact F. }
    unfold updatePassword, comparePassword. rewrite F, Hc.
    apply String.eqb_neq in Hne. rewrite Hne. cbn [negb fst snd].
    split; [reflexivity|].
    eapply (stamped_intro env _ _ t_save t_sign _ u); [exact Ht| | |].
    + apply findById_updateOne; [reflexivity|]. rewrite Hid. exact F.
    + reflexivity.
    + reflexivity.
Qed.

Lemma password_change_stamp_witness :
  stamped_one_second_before Demo.env
    (fst (resetPassword Demo.sha256 Demo.bcrypt_hash TokenDemo.db2 Demo.env
            TokenDemo.tok1 "Newpass1!" 3400 3500 3600))
    (snd (resetPassword Demo.sha256 Demo.bcrypt_hash TokenDemo.db2 Demo.env
            TokenDemo.tok1 "Newpass1!" 3400 3500 3600))
    1 3500 3600
  /\ stamped_one_second_before Demo.env
       GateDemo.db_soon
       (snd (updatePassword Demo.bcrypt_hash Demo.bcrypt_compare Demo.db Demo.env
               Demo.alice "Abcdef1!" "Newpass1!" 5001500 5001600))
       1 5001500 5001600.
Proof.
  split.
  - destruct (password_change_stamp Demo.sha256 Demo.bcrypt_hash Demo.bcrypt_compare
                TokenDemo.db2 Demo.env 3500 3600 eq_refl) as [A _]; [lia|].
    exact (proj2 (A TokenDemo.tok1 "Newpass1!" TokenDemo.alice2 3400 eq_refl)).
  - destruct (password_change_stamp Demo.sha256 Demo.bcrypt_hash Demo.bcrypt_compare
                Demo.db Demo.env 5001500 5001600 eq_refl) as [_ B]; [lia|].
    refine (proj2 (B Demo.alice Demo.alice "Abcdef1!" "Newpass1!" eq_refl eq_refl _)).
    vm_compute. discriminate.
Defined.

(** C10 as stated fails in its last part: a session token signed at
    3000 ms, before the password reset saved at 3500 ms, still passes
    [changedPasswordAfter] and the gate after the reset. *)
Lemma token_of_the_last_second_survives_reset :
  let old_token := generateAuthToken TokenDemo.alice2 Demo.env 3000 in
  let db3 := fst (resetPassword Demo.sha256 Demo.bcrypt_hash TokenDemo.db2 Demo.env
                    TokenDemo.tok1 "Newpass1!" 3400 3500 3600) in
  3000 < 3500
  /\ (exists u1, findById 1 db3 = Some u1
                 /\ passwordChangedAt u1 = Some 2500
                 /\ changedPasswordAfter u1 (3000 / 1000) = false)
  /\ granted (protect db3 Demo.env (Demo.bearer old_token) 4000) = true.
Proof.
  cbv zeta. split; [lia|]. split.
  - eexists. split; [vm_compute; reflexivity|]. split; reflexivity.
  - vm_compute. reflexivity.
Qed.

(** ** Issuing the random tokens *)

Lemma randomBytes_length (n : nat) (rng : nat -> Byte.byte) :
  List.length (randomBytes n rng) = n.
Proof. unfold randomBytes. rewrite List.length_map. apply List.length_seq. Qed.

Lemma toHex_length (bs : list Byte.byte) :
  String.length (toHex bs) = (2 * List.length bs)%nat.
Proof.
  induction bs as [|b rest IH]; [reflexivity|].
  cbn [toHex String.length List.length]. rewrite IH. lia.
Qed.

Lemma unhexChars_hexChars (b : Byte.byte) : unhexChars (hexChars b) = Some b.
Proof. destruct b; reflexivity. Qed.

(** The hexadecimal text loses nothing of the bytes. *)
Lemma toHex_inj (xs ys : list Byte.byte) : toHex xs = toHex ys -> xs = ys.
Proof.
  revert ys. induction xs as [|x xs IH]; intros [|y ys] H;
    try reflexivity; try discriminate.
  cbn [toHex] in H. injection H as H1 H2 H3.
  f_equal; [|apply IH; exact H3].
  assert (hexChars x = hexChars y) as E.
  { unfold hexChars. f_equal; assumption. }
  pose proof (unhexChars_hexChars x) as Ex. rewrite E in Ex.
  rewrite unhexChars_hexChars in Ex. congruence.
Qed.

(** With the lifetime configured to [m] minutes, the reset token is the
    hexadecimal text of 32 random bytes; the account receives its SHA-256
    hash and the expiry [now + m] minutes, and nothing else changes. *)
Lemma createPasswordResetToken_configured sha256 env now m rng this :
  PASSWORD_RESET_EXPIRE env = Some m ->
  createPasswordResetToken sha256 env now rng this
  = (toHex (randomBytes 32 rng),
     set_passwordReset (Some (sha256 (toHex (randomBytes 32 rng))))
       (Some (now + m * 60 * 1000)) this)
  /\ List.length (randomBytes 32 rng) = 32%nat
  /\ String.length (toHex (randomBytes 32 rng)) = 64%nat.
Proof.
  intros Hm. unfold createPasswordResetToken, resetExpireValue. rewrite Hm.
  split; [reflexivity|]. split; [apply randomBytes_length|].
  rewrite toHex_length, randomBytes_length. reflexivity.
Qed.

(** The verification token is made the same way and lives 24 hours. *)
Lemma createEmailVerificationToken_issue sha256 now rng this :
  createEmailVerificationToken sha256 now rng this
  = (toHex (randomBytes 32 rng),
     set_emailVerification (Some (sha256 (toHex (randomBytes 32 rng))))
       (Some (now + 86400000)) this).
Proof. reflexivity. Qed.

(** C7, where the code leaves it.  [createPasswordResetToken] reads the
    lifetime from [PASSWORD_RESET_EXPIRE] with no value to fall back on:
    when the variable is unset the expiry it computes is [NaN], the account
    receives the hash of the token and no expiry, and not the expiry of ten
    minutes from now; the token that was just issued matches no reset
    query. *)
Theorem createPasswordResetToken_unset_lifetime :
  forall sha256 (env : Env) (now : Z) (rng : nat -> Byte.byte) (this : User),
    PASSWORD_RESET_EXPIRE env = None ->
    passwordResetExpire this = None ->
    let issued := createPasswordResetToken sha256 env now rng this in
    resetExpireValue env now = None
    /\ passwordResetToken (snd issued) = Some (sha256 (fst issued))
    /\ passwordResetExpire (snd issued) = None
    /\ passwordResetExpire (snd issued) <> Some (now + 10 * 60 * 1000)
    /\ forall t, byResetToken (sha256 (fst issued)) t (snd issued) = false.
Proof.
  intros sha256 env now rng this He Hp issued. subst issued.
  unfold createPasswordResetToken, resetExpireValue. rewrite He, Hp.
  cbn [fst snd assign_date set_passwordReset passwordResetToken passwordResetExpire].
  repeat split; try congruence.
  intros t. unfold byResetToken.
  cbn [passwordResetExpire date_gt]. rewrite andb_false_r. reflexivity.
Qed.

Lemma createPasswordResetToken_unset_lifetime_witness :
  PASSWORD_RESET_EXPIRE Demo.env_unset = None
  /\ passwordResetExpire
       (snd (createPasswordResetToken Demo.sha256 Demo.env_unset 1000 Demo.rng1
               Demo.alice)) = None
  /\ forall t,
      byResetToken (Demo.sha256 TokenDemo.tok1) t
        (snd (createPasswordResetToken Demo.sha256 Demo.env_unset 1000 Demo.rng1
                Demo.alice)) = false.
Proof.
  split; [reflexivity|].
  destruct (createPasswordResetToken_unset_lifetime Demo.sha256 Demo.env_unset
              1000 Demo.rng1 Demo.alice eq_refl eq_refl) as [_ [_ [A [_ B]]]].
  split; [exact A|exact B].
Defined.

(** ** Password comparison *)

(** [comparePassword] is [bcrypt.compare] on the stored digest, with no
    check of the digest and no handler of its own: it answers what the
    library answers and rejects when the library rejects. *)
Lemma comparePassword_is_bcrypt_compare bcrypt_compare (this : User) (s : string) :
  comparePassword bcrypt_compare this s = bcrypt_compare s (password this).
Proof. reflexivity. Qed.

(** A rejected comparison reaches the [catch] of the route: [login]
    answers 500 and writes nothing. *)
Lemma login_compare_rejects bcrypt_compare db env e pw u t_lock t_done t_sign :
  findOne (byEmailActive e) db = Some u ->
  isLocked u t_lock = false ->
  bcrypt_compare pw (password u) = None ->
  login bcrypt_compare db env e pw t_lock t_done t_sign
  = (db, json 500 "error" "Something went wrong during login").
Proof.
  intros F HL Hc. unfold login, getAuthenticated, comparePassword.
  rewrite F, HL, Hc. reflexivity.
Qed.

(** * Further properties of the code *)

(** ** What [login] writes *)

Lemma map_updateOne {A : Type} (g : User -> A) (id : nat) (f : User -> User)
    (db : Store) :
  (forall v, g (f v) = g v) -> map g (updateOne id f db) = map g db.
Proof.
  intros Hg. induction db as [|a rest IH]; [reflexivity|].
  simpl. destruct (Nat.eqb (_id a) id); simpl.
  - rewrite Hg. reflexivity.
  - rewrite IH. reflexivity.
Qed.

Lemma incLoginAttempts_keeps_id (this : User) (now : Z) (v : User) :
  _id (incLoginAttempts this now v) = _id v.
Proof. unfold incLoginAttempts. destruct (date_lt _ _); reflexivity. Qed.

Lemma incLoginAttempts_keeps_credentials (this : User) (now : Z) (v : User) :
  credentials (incLoginAttempts this now v) = credentials v.
Proof. unfold incLoginAttempts. destruct (date_lt _ _); reflexivity. Qed.

Lemma login_ids_unique bcrypt_compare db env e pw t_lock t_done t_sign :
  ids_unique db = true ->
  ids_unique (fst (login bcrypt_compare db env e pw t_lock t_done t_sign)) = true.
Proof.
  intros Hu. unfold login, getAuthenticated, comparePassword.
  destruct (findOne (byEmailActive e) db) as [u|]; [|exact Hu].
  destruct (isLocked u t_lock); [exact Hu|].
  destruct (bcrypt_compare pw (password u)) as [[|]|]; cbn [auth_user fst snd];
    [| |exact Hu].
  - apply ids_unique_updateOne; [reflexivity|].
    destruct (0 <? attempts u); [|exact Hu].
    apply ids_unique_updateOne; [reflexivity|exact Hu].
  - apply ids_unique_updateOne; [|exact Hu].
    intros v. apply incLoginAttempts_keeps_id.
Qed.

Lemma Forall_updateOne_all (P : User -> Prop) (id : nat) (f : User -> User)
    (db : Store) :
  (forall v, P v -> P (f v)) -> Forall P db -> Forall P (updateOne id f db).
Proof.
  intros Hf. induction db as [|a rest IH]; intros HP; [constructor|].
  inversion HP as [|? ? Pa Prest]; subst. simpl.
  destruct (Nat.eqb (_id a) id); constructor; auto.
Qed.

Lemma login_keeps_lock_inv bcrypt_compare db env e pw t_lock t_done t_sign :
  ids_unique db = true ->
  Forall lock_inv db ->
  Forall lock_inv (fst (login bcrypt_compare db env e pw t_lock t_done t_sign)).
Proof.
  intros Hu HP. unfold login, getAuthenticated, comparePassword.
  destruct (findOne (byEmailActive e) db) as [u|] eqn:F; [|exact HP].
  pose proof (findOne_In _ _ _ F) as [Hin _].
  assert (lock_inv u) as [Iu0 Iu5] by (rewrite Forall_forall in HP; auto).
  destruct (isLocked u t_lock); [exact HP|].
  destruct (bcrypt_compare pw (password u)) as [[|]|]; cbn [auth_user fst snd];
    [| |exact HP].
  - apply Forall_updateOne_all; [intros v Hv; exact Hv|].
    destruct (0 <? attempts u); [|exact HP].
    apply Forall_updateOne_all; [|exact HP].
    intros v _. unfold lock_inv. cbn. split; [lia|congruence].
  - apply Forall_updateOne; try assumption.
    unfold incLoginAttempts, lock_inv.
    destruct (date_lt (lockUntil u) t_done).
    + cbn. split; [lia|congruence].
    + cbn [set_lockout attempts loginAttempts lockUntil]. fold (attempts u).
      split; [lia|].
      destruct (5 <=? attempts u + 1) eqn:E; cbn [andb].
      * intros _. apply Z.leb_le in E. exact E.
      * intros Hn. specialize (Iu5 Hn). lia.
Qed.

(** X1.  Through any sequence of logins for an e-mail, whatever the
    passwords and the clock, every account of the collection keeps a
    non-negative count of failed attempts and holds a [lockUntil] only
    together with at least five counted failures. *)
Theorem logins_keep_lock_inv :
  forall bcrypt_compare (env : Env) (e : string)
         (attempts_ : list (string * (Z * Z * Z))) (db : Store),
    ids_unique db = true ->
    Forall lock_inv db ->
    Forall lock_inv (logins bcrypt_compare db env e attempts_).
Proof.
  intros cmp env e l. induction l as [|[pw [[t1 t2] t3]] rest IH];
    intros db Hu HP; [exact HP|].
  cbn [logins]. apply IH.
  - apply login_ids_unique. exact Hu.
  - apply login_keeps_lock_inv; assumption.
Qed.

Lemma logins_keep_lock_inv_witness :
  Forall lock_inv
    (logins Demo.bcrypt_compare Demo.db Demo.env "alice@example.com"
       [("a", (0, 1, 2)); ("b", (10, 11, 12)); ("c", (20, 21, 22));
        ("d", (30, 31, 32)); ("e", (40, 41, 42)); ("Abcdef1!", (50, 51, 52))]).
Proof.
  apply logins_keep_lock_inv; [reflexivity|].
  repeat constructor; cbn; try lia; congruence.
Defined.

(** X2.  [login], [forgotPassword], [verifyEmail] and [resendVerification]
    never change the [_id], e-mail, username, password digest, role or
    active flag of any account, whatever they answer. *)
Theorem credentials_untouched :
  forall sha256 bcrypt_compare (db : Store) (env : Env) (e pw tok : string)
         (req_user : User) (t_lock t_done t_sign now : Z) (rng : nat -> Byte.byte),
    map credentials (fst (login bcrypt_compare db env e pw t_lock t_done t_sign))
    = map credentials db
    /\ map credentials (fst (forgotPassword sha256 db env e now rng))
       = map credentials db
    /\ map credentials (fst (verifyEmail sha256 db tok now)) = map credentials db
    /\ map credentials (fst (resendVerification sha256 db req_user now rng))
       = map credentials db.
Proof.
  intros sha256 cmp db env e pw tok req_user t_lock t_done t_sign now rng.
  repeat split.
  - unfold login, getAuthenticated, comparePassword.
    destruct (findOne (byEmailActive e) db) as [u|]; [|reflexivity].
    destruct (isLocked u t_lock); [reflexivity|].
    destruct (cmp pw (password u)) as [[|]|]; cbn [auth_user fst snd];
      [| |reflexivity].
    + rewrite map_updateOne by reflexivity.
      destruct (0 <? attempts u); [|reflexivity].
      apply map_updateOne. reflexivity.
    + apply map_updateOne. intros v. apply incLoginAttempts_keeps_credentials.
  - unfold forgotPassword.
    destruct (findOne (byEmailActive e) db) as [u|]; [|reflexivity].
    cbn [createPasswordResetToken fst snd]. apply map_updateOne. reflexivity.
  - unfold verifyEmail.
    destruct (findOne _ db) as [u|]; [|reflexivity].
    cbn [fst]. apply map_updateOne. reflexivity.
  - unfold resendVerification.
    destruct (isEmailVerified req_user); [reflexivity|].
    cbn [createEmailVerificationToken fst snd]. apply map_updateOne. reflexivity.
Qed.

(** ** Five wrong passwords *)

Lemma byEmailActive_incLoginAttempts e (this : User) (now : Z) (v : User) :
  byEmailActive e (incLoginAttempts this now v) = byEmailActive e v.
Proof. unfold incLoginAttempts. destruct (date_lt _ _); reflexivity. Qed.

(** One login with a wrong password on an account without a lock. *)
Lemma login_wrong_password_no_lock bcrypt_compare db env e pw (u : User)
    t_lock t_done t_sign :
  ids_unique db = true ->
  findOne (byEmailActive e) db = Some u ->
  lockUntil u = None ->
  bcrypt_compare pw (password u) = Some false ->
  let u1 :=
    set_lockout (Some (attempts u + 1))
      (if 5 <=? attempts u + 1 then Some (t_done + 2 * 60 * 60 * 1000) else None) u in
  let db1 := fst (login bcrypt_compare db env e pw t_lock t_done t_sign) in
  ids_unique db1 = true
  /\ findOne (byEmailActive e) db1 = Some u1
  /\ findById (_id u) db1 = Some u1.
Proof.
  intros Hu F Hl Hc u1 db1.
  assert (isLocked u t_lock = false) as HL
    by (unfold isLocked, date_gt; rewrite Hl; reflexivity).
  assert (db1 = updateOne (_id u) (incLoginAttempts u t_done) db) as E.
  { subst db1. unfold login, getAuthenticated, comparePassword.
    rewrite F, HL, Hc. reflexivity. }
  assert (incLoginAttempts u t_done u = u1) as E1.
  { subst u1. unfold incLoginAttempts, isLocked, date_lt, date_gt. rewrite Hl.
    cbn beta. rewrite Hl. cbn [negb]. rewrite andb_true_r. reflexivity. }
  split; [subst db1; apply login_ids_unique; exact Hu|].
  rewrite E, <- E1. split.
  - apply findOne_updateOne_same; try assumption.
    intros v. apply byEmailActive_incLoginAttempts.
  - apply findById_updateOne; [intros v; apply incLoginAttempts_keeps_id|].
    apply (findById_of_findOne (byEmailActive e)); assumption.
Qed.

(** Wrong passwords below the threshold are counted and set no lock. *)
Lemma wrong_logins_are_counted bcrypt_compare env e (digest : string)
    (l : list (string * (Z * Z * Z))) :
  Forall (fun a => bcrypt_compare (fst a) digest = Some false) l ->
  forall (db : Store) (u : User),
    ids_unique db = true ->
    findOne (byEmailActive e) db = Some u ->
    password u = digest ->
    lockUntil u = None ->
    attempts u + Z.of_nat (List.length l) <= 4 ->
    let db' := logins bcrypt_compare db env e l in
    ids_unique db' = true
    /\ findOne (byEmailActive e) db'
       = Some (set_lockout
                 (match l with
                  | [] => loginAttempts u
                  | _ => Some (attempts u + Z.of_nat (List.length l))
                  end) None u).
Proof.
  induction 1 as [|[pw [[t1 t2] t3]] rest Hw _ IH]; intros db u Hu F Hd Hl Hn db'.
  - subst db'. cbn [logins]. split; [exact Hu|].
    rewrite F. f_equal. destruct u; cbn in *. subst. reflexivity.
  - subst db'. cbn [logins]. cbn [fst] in Hw. rewrite <- Hd in Hw.
    destruct (login_wrong_password_no_lock bcrypt_compare db env e pw u t1 t2 t3
                Hu F Hl Hw) as [Hu1 [F1 _]].
    cbn [List.length] in Hn.
    replace (5 <=? attempts u + 1) with false in F1
      by (symmetry; apply Z.leb_gt; lia).
    specialize (IH _ _ Hu1 F1 Hd eq_refl).
    cbn [set_lockout attempts loginAttempts] in IH.
    destruct IH as [Hu' F']; [lia|]. split; [exact Hu'|].
    rewrite F'. f_equal.
    replace (match rest with
             | [] => Some (attempts u + 1)
             | _ :: _ => Some (attempts u + 1 + Z.of_nat (List.length rest))
             end)
      with (Some (attempts u + Z.of_nat (S (List.length rest))))
      by (destruct rest; cbn [List.length]; f_equal; lia).
    reflexivity.
Qed.

(** X3.  An account without failed attempts and without a lock that is
    given four wrong passwords and then a fifth has five counted failures
    and is locked until two hours after the fifth; until then every login
    for it, also one with the right password, is refused as locked and
    writes nothing. *)
Theorem five_wrong_passwords_lock :
  forall bcrypt_compare (db : Store) (env : Env) (e : string) (u : User)
         (first_four : list (string * (Z * Z * Z))) (pw : string)
         (t_lock t_done t_sign : Z),
    ids_unique db = true ->
    findOne (byEmailActive e) db = Some u ->
    attempts u = 0 ->
    lockUntil u = None ->
    List.length first_four = 4%nat ->
    Forall (fun a => bcrypt_compare (fst a) (password u) = Some false) first_four ->
    bcrypt_compare pw (password u) = Some false ->
    let db5 :=
      logins bcrypt_compare db env e (first_four ++ [(pw, (t_lock, t_done, t_sign))]) in
    findById (_id u) db5
    = Some (set_lockout (Some 5) (Some (t_done + 2 * 60 * 60 * 1000)) u)
    /\ forall cmp pw' t t' t'',
        t < t_done + 2 * 60 * 60 * 1000 ->
        login cmp db5 env e pw' t t' t'' = (db5, json 401 "fail" msg_locked).
Proof.
  intros cmp db env e u four pw t_lock t_done t_sign Hu F Ha Hl Hlen Hw Hc db5.
  assert (forall l1 l2 d, logins cmp d env e (l1 ++ l2)
                          = logins cmp (logins cmp d env e l1) env e l2) as Happ.
  { induction l1 as [|[p [[a b] c]] l1 IH]; intros l2 d; [reflexivity|].
    cbn [app logins]. apply IH. }
  destruct (wrong_logins_are_counted cmp env e (password u) four Hw db u
              Hu F eq_refl Hl) as [Hu4 F4]; [rewrite Ha, Hlen; lia|].
  rewrite Ha, Hlen in F4.
  assert (findOne (byEmailActive e) (logins cmp db env e four)
          = Some (set_lockout (Some 4) None u)) as F4'.
  { rewrite F4. destruct four; [discriminate Hlen|reflexivity]. }
  clear F4. subst db5. rewrite Happ.
  remember (logins cmp db env e four) as db4 eqn:E4. cbn [logins].
  destruct (login_wrong_password_no_lock cmp db4 env e pw
              (set_lockout (Some 4) None u) t_lock t_done t_sign
              Hu4 F4' eq_refl Hc) as [_ [F5 I5]].
  remember (fst (login cmp db4 env e pw t_lock t_done t_sign)) as db5 eqn:E5.
  split; [exact I5|].
  intros cmp' pw' t t' t'' Ht.
  unfold login, getAuthenticated. rewrite F5.
  unfold isLocked, date_gt. cbn [lockUntil set_lockout attempts loginAttempts].
  change (5 <=? 4 + 1) with true. cbv iota.
  replace (t <? t_done + 2 * 60 * 60 * 1000) with true
    by (symmetry; apply Z.ltb_lt; exact Ht).
  reflexivity.
Qed.

Lemma five_wrong_passwords_lock_witness :
  let db5 :=
    logins Demo.bcrypt_compare Demo.db Demo.env "alice@example.com"
      [("a", (0, 1, 2)); ("b", (10, 11, 12)); ("c", (20, 21, 22));
       ("d", (30, 31, 32)); ("e", (40, 41, 42))] in
  findById 1 db5 = Some (set_lockout (Some 5) (Some 7200041) Demo.alice)
  /\ login Demo.bcrypt_compare db5 Demo.env "alice@example.com" "Abcdef1!"
       7200040 7200040 7200040
     = (db5, json 401 "fail" msg_locked).
Proof.
  destruct (five_wrong_passwords_lock Demo.bcrypt_compare Demo.db Demo.env
              "alice@example.com" Demo.alice
              [("a", (0, 1, 2)); ("b", (10, 11, 12)); ("c", (20, 21, 22));
               ("d", (30, 31, 32))] "e" 40 41 42
              eq_refl eq_refl eq_refl eq_refl eq_refl)
    as [A B].
  - repeat constructor.
  - reflexivity.
  - split; [exact A|]. apply B. lia.
Defined.

(** ** What the gate lets through *)

Lemma protect_next_inversion :
  forall (db : Store) (env : Env) (req : Request) (now : Z) (u : User),
    protect db env req now = Next u ->
    exists p,
      request_token req = Some (Signed (JWT_SECRET env) p)
      /\ now / 1000 < exp p
      /\ findById (jwt_id p) db = Some u
      /\ isActive u = true
      /\ changedPasswordAfter u (iat p) = false.
Proof.
  intros db env req now u H. unfold protect in H.
  destruct (request_token req) as [tok|]; [|discriminate].
  destruct tok as [raw|key p]; cbn [jwt_verify] in H; [discriminate|].
  destruct (String.eqb key (JWT_SECRET env)) eqn:Ek; [|discriminate].
  destruct (exp p <=? now / 1000) eqn:Ex; [discriminate|].
  destruct (findById (jwt_id p) db) as [v|] eqn:Ef; [|discriminate].
  destruct (isActive v) eqn:Ea; cbn [negb] in H; [|discriminate].
  destruct (changedPasswordAfter v (iat p)) eqn:Ec; [discriminate|].
  injection H as <-. exists p.
  apply String.eqb_eq in Ek. subst key. apply Z.leb_gt in Ex.
  repeat split; assumption || reflexivity.
Qed.

(** X4.  The gate calls [next()] only for a request that carries a token
    signed with the server's secret and not yet expired, whose subject is an
    account of the collection that is active and whose password was not
    changed after the token's [iat]; [req.user] is that account. *)
Theorem protect_grants_only_valid_sessions :
  forall (db : Store) (env : Env) (req : Request) (now : Z) (u : User),
    protect db env req now = Next u ->
    exists p,
      request_token req = Some (Signed (JWT_SECRET env) p)
      /\ now / 1000 < exp p
      /\ findById (jwt_id p) db = Some u
      /\ isActive u = true
      /\ changedPasswordAfter u (iat p) = false.
Proof. exact protect_next_inversion. Qed.

Lemma protect_grants_only_valid_sessions_witness :
  exists p,
    request_token (Demo.bearer GateDemo.tok) = Some (Signed (JWT_SECRET Demo.env) p)
    /\ 5020000 / 1000 < exp p
    /\ findById (jwt_id p) Demo.db = Some Demo.alice
    /\ isActive Demo.alice = true
    /\ changedPasswordAfter Demo.alice (iat p) = false.
Proof.
  exact (protect_grants_only_valid_sessions Demo.db Demo.env
           (Demo.bearer GateDemo.tok) 5020000 Demo.alice eq_refl).
Defined.

(** X5.  [optionalAuth] sets [req.user] for exactly the requests that
    [protect] lets through, and to the same account; for all others it
    leaves [req.user] null. *)
Theorem optionalAuth_agrees_with_protect :
  forall (db : Store) (env : Env) (req : Request) (now : Z),
    optionalAuth db env req now
    = match protect db env req now with
      | Next u => Some u
      | Respond _ => None
      end.
Proof.
  intros db env req now. unfold optionalAuth, protect.
  destruct (request_token req) as [tok|]; [|reflexivity].
  destruct (jwt_verify tok (JWT_SECRET env) now) as [p| |]; try reflexivity.
  destruct (findById (jwt_id p) db) as [v|]; [|reflexivity].
  destruct (isActive v); cbn [negb andb]; [|reflexivity].
  destruct (changedPasswordAfter v (iat p)); reflexivity.
Qed.

(** ** A deactivated account *)

Lemma ids_unique_inj (db : Store) (a b : User) :
  ids_unique db = true -> In a db -> In b db -> _id a = _id b -> a = b.
Proof.
  intros Hu Ha Hb E.
  pose proof (findById_of_In db a Hu Ha) as Fa.
  pose proof (findById_of_In db b Hu Hb) as Fb.
  rewrite E in Fa. congruence.
Qed.

Lemma findById_updateOne_other (id id' : nat) (f : User -> User) (db : Store) :
  (forall v, _id (f v) = _id v) -> id' <> id ->
  findById id' (updateOne id f db) = findById id' db.
Proof.
  intros Hf Hne. unfold findById.
  induction db as [|a rest IH]; [reflexivity|].
  simpl. destruct (Nat.eqb (_id a) id) eqn:E.
  - simpl. rewrite Hf. apply Nat.eqb_eq in E. rewrite E.
    replace (Nat.eqb id id') with false
      by (symmetry; apply Nat.eqb_neq; congruence).
    reflexivity.
  - simpl. destruct (Nat.eqb (_id a) id'); [reflexivity|exact IH].
Qed.

(** A query that asks for [isActive] never finds the inactive account nor
    any document with its [_id]. *)
Lemma active_query_misses (q : User -> bool) (db : Store) (u v : User) :
  ids_unique db = true -> In u db -> isActive u = false ->
  (forall w, q w = true -> isActive w = true) ->
  findOne q db = Some v -> _id u <> _id v.
Proof.
  intros Hu Hin Ha Hq F E.
  apply findOne_In in F. destruct F as [Hv Qv].
  assert (u = v) by (apply (ids_unique_inj db); assumption). subst v.
  rewrite (Hq u Qv) in Ha. discriminate.
Qed.

Lemma byEmailActive_active e w : byEmailActive e w = true -> isActive w = true.
Proof. unfold byEmailActive. intros H. apply andb_true_iff in H. tauto. Qed.

Lemma byResetToken_active h t w : byResetToken h t w = true -> isActive w = true.
Proof. unfold byResetToken. intros H. apply andb_true_iff in H. tauto. Qed.

Lemma byVerificationToken_active h t w :
  byVerificationToken h t w = true -> isActive w = true.
Proof. unfold byVerificationToken. intros H. apply andb_true_iff in H. tauto. Qed.

(** X6.  An account with [isActive] false is out of reach of the public
    routes: no [login], [forgotPassword], [resetPassword] or [verifyEmail],
    whatever its input, writes to the account, and none answers with a
    session for it. *)
Theorem deactivated_account_out_of_reach :
  forall sha256 bcrypt_hash bcrypt_compare (db : Store) (env : Env) (u : User),
    ids_unique db = true ->
    In u db ->
    isActive u = false ->
    (forall e pw t_lock t_done t_sign,
        let r := login bcrypt_compare db env e pw t_lock t_done t_sign in
        findById (_id u) (fst r) = Some u /\ data_user (snd r) <> Some (_id u))
    /\ (forall e now rng,
        findById (_id u) (fst (forgotPassword sha256 db env e now rng)) = Some u)
    /\ (forall tok pw t_find t_save t_sign,
        let r := resetPassword sha256 bcrypt_hash db env tok pw t_find t_save t_sign in
        findById (_id u) (fst r) = Some u /\ data_user (snd r) <> Some (_id u))
    /\ (forall tok now,
        findById (_id u) (fst (verifyEmail sha256 db tok now)) = Some u).
Proof.
  intros sha256 bcrypt_hash cmp db env u Hu Hin Ha.
  pose proof (findById_of_In db u Hu Hin) as Fu.
  split; [|split; [|split]].
  - intros e pw t_lock t_done t_sign r. subst r.
    unfold login, getAuthenticated, comparePassword.
    destruct (findOne (byEmailActive e) db) as [v|] eqn:F;
      [|split; [exact Fu|discriminate]].
    pose proof (active_query_misses _ db u v Hu Hin Ha (byEmailActive_active e) F)
      as Hne.
    destruct (isLocked v t_lock); [split; [exact Fu|discriminate]|].
    destruct (cmp pw (password v)) as [[|]|]; cbn [auth_user fst snd];
      [| |split; [exact Fu|discriminate]].
    + split.
      * rewrite findById_updateOne_other; [|reflexivity|exact Hne].
        destruct (0 <? attempts v); [|exact Fu].
        rewrite findById_updateOne_other; [exact Fu|reflexivity|exact Hne].
      * cbn. congruence.
    + split; [|discriminate].
      rewrite findById_updateOne_other; [exact Fu| |exact Hne].
      intros w. apply incLoginAttempts_keeps_id.
  - intros e now rng. unfold forgotPassword.
    destruct (findOne (byEmailActive e) db) as [v|] eqn:F; [|exact Fu].
    pose proof (active_query_misses _ db u v Hu Hin Ha (byEmailActive_active e) F)
      as Hne.
    cbn [createPasswordResetToken fst snd].
    rewrite findById_updateOne_other; [exact Fu|reflexivity|exact Hne].
  - intros tok pw t_find t_save t_sign r. subst r. unfold resetPassword.
    destruct (findOne (byResetToken (sha256 tok) t_find) db) as [v|] eqn:F;
      [|split; [exact Fu|discriminate]].
    pose proof (active_query_misses _ db u v Hu Hin Ha
                  (byResetToken_active (sha256 tok) t_find) F) as Hne.
    cbn [fst snd]. split.
    + rewrite findById_updateOne_other; [exact Fu|reflexivity|exact Hne].
    + cbn. congruence.
  - intros tok now. unfold verifyEmail.
    destruct (findOne (byVerificationToken (sha256 tok) now) db) as [v|] eqn:F;
      [|exact Fu].
    pose proof (active_query_misses _ db u v Hu Hin Ha
                  (byVerificationToken_active (sha256 tok) now) F) as Hne.
    cbn [fst]. rewrite findById_updateOne_other; [exact Fu|reflexivity|exact Hne].
Qed.

Lemma deactivated_account_out_of_reach_witness :
  (* the closed account, asked for by its old and by its new e-mail *)
  data_user (snd (login Demo.bcrypt_compare GateDemo.db_closed Demo.env
                    "alice@example.com" "Abcdef1!" 5002000 5002100 5002100))
  <> Some 1%nat
  /\ data_user (snd (login Demo.bcrypt_compare GateDemo.db_closed Demo.env
                       "deleted_5001500_alice@example.com" "Abcdef1!"
                       5002000 5002100 5002100))
     <> Some 1%nat
  /\ findById 1 (fst (forgotPassword Demo.sha256 GateDemo.db_closed Demo.env
                        "deleted_5001500_alice@example.com" 5002000 Demo.rng1))
     = Some GateDemo.alice_closed.
Proof.
  destruct (deactivated_account_out_of_reach Demo.sha256 Demo.bcrypt_hash
              Demo.bcrypt_compare GateDemo.db_closed Demo.env GateDemo.alice_closed
              eq_refl (or_introl eq_refl) eq_refl) as [L [Fg _]].
  split; [apply L|]. split; [apply L|apply Fg].
Defined.

(** ** The lifetime of the single-use tokens *)

Lemma findOne_sole_match (q : User -> bool) (db : Store) (x : User) :
  ids_unique db = true ->
  In x db ->
  q x = true ->
  (forall v, In v db -> _id v <> _id x -> q v = false) ->
  findOne q db = Some x.
Proof.
  unfold findOne. induction db as [|a rest IH]; intros Hu Hin Hq Ho;
    [destruct Hin|].
  pose proof (ids_unique_tail a rest Hu) as [Hrest Hu'].
  simpl. destruct Hin as [->|Hin]; [rewrite Hq; reflexivity|].
  rewrite (Ho a (or_introl eq_refl)).
  - apply IH; try assumption. intros v Hv. apply Ho. right. exact Hv.
  - specialize (Hrest x Hin). apply Nat.eqb_neq in Hrest. congruence.
Qed.

Lemma only_holder_elim (holds : User -> bool) (id : nat) (db : Store) (v : User) :
  only_holder holds id db = true -> In v db -> _id v <> id -> holds v = false.
Proof.
  unfold only_holder. intros Ho Hin Hne.
  rewrite forallb_forall in Ho. specialize (Ho v Hin).
  apply Nat.eqb_neq in Hne. rewrite Hne in Ho.
  cbn [orb] in Ho. apply negb_true_iff. exact Ho.
Qed.

(** After an update of the account [u] that no other account's document
    satisfies, a query that implies [holds] finds the updated account when
    it matches and nothing otherwise. *)
Lemma findOne_after_issue (holds q : User -> bool) (f : User -> User)
    (db : Store) (u : User) :
  ids_unique db = true ->
  findById (_id u) db = Some u ->
  (forall v, _id (f v) = _id v) ->
  only_holder holds (_id u) db = true ->
  (forall v, q v = true -> holds v = true) ->
  findOne q (updateOne (_id u) f db) = if q (f u) then Some (f u) else None.
Proof.
  intros Hu Fu Hf Ho Hq.
  assert (forall v, In v (updateOne (_id u) f db) -> _id v <> _id u -> q v = false)
    as Hothers.
  { intros v Hv Hne.
    apply In_updateOne in Hv; [|exact Hu].
    destruct Hv as [[w [_ [Hw ->]]]|[Hin _]].
    - rewrite Hf in Hne. congruence.
    - pose proof (only_holder_elim holds (_id u) db v Ho Hin Hne) as Hh.
      destruct (q v) eqn:E; [|reflexivity].
      rewrite (Hq v E) in Hh. discriminate. }
  pose proof (findById_updateOne (_id u) f db u Hf Fu) as Fu'.
  assert (In (f u) (updateOne (_id u) f db)) as Hin'.
  { unfold findById in Fu'. apply find_some in Fu'. exact (proj1 Fu'). }
  destruct (q (f u)) eqn:E.
  - apply findOne_sole_match; try assumption.
    + apply ids_unique_updateOne; assumption.
    + intros v Hv Hne. apply Hothers; [exact Hv|]. rewrite Hf in Hne. exact Hne.
  - apply findOne_none_intro. intros v Hv.
    destruct (Nat.eq_dec (_id v) (_id u)) as [Eid|Hne]; [|apply Hothers; assumption].
    assert (v = f u).
    { apply (ids_unique_inj (updateOne (_id u) f db)); try assumption.
      - apply ids_unique_updateOne; assumption.
      - rewrite Hf. exact Eid. }
    subst v. exact E.
Qed.

(** X7.  A reset token issued at [now] with a lifetime of [m] minutes is
    accepted by [resetPassword] at every clock reading before
    [now + m] minutes and refused from that instant on; a verification token
    issued at [now] is accepted by [verifyEmail] before [now + 24] hours and
    refused from then on. *)
Theorem single_use_token_lifetime :
  forall sha256 bcrypt_hash (db : Store) (env : Env) (u : User) (now : Z)
         (rng : nat -> Byte.byte),
    ids_unique db = true ->
    findById (_id u) db = Some u ->
    isActive u = true ->
    let tok := toHex (randomBytes 32 rng) in
    (forall e m pw t_find t_save t_sign,
        PASSWORD_RESET_EXPIRE env = Some m ->
        findOne (byEmailActive e) db = Some u ->
        only_holder (holds_reset (sha256 tok)) (_id u) db = true ->
        statusCode
          (snd (resetPassword sha256 bcrypt_hash
                  (fst (forgotPassword sha256 db env e now rng)) env tok pw
                  t_find t_save t_sign))
        = if t_find <? now + m * 60 * 1000 then 200 else 400)
    /\ (forall t,
        isEmailVerified u = false ->
        only_holder (holds_verification (sha256 tok)) (_id u) db = true ->
        statusCode
          (snd (verifyEmail sha256 (fst (resendVerification sha256 db u now rng))
                  tok t))
        = if t <? now + 24 * 60 * 60 * 1000 then 200 else 400).
Proof.
  intros sha256 bcrypt_hash db env u now rng Hu Fu Ha tok. split.
  - intros e m pw t_find t_save t_sign Hm F Ho.
    unfold forgotPassword. rewrite F. cbn [createPasswordResetToken fst snd].
    unfold resetExpireValue. rewrite Hm.
    cbn [assign_date passwordResetToken passwordResetExpire set_passwordReset].
    unfold resetPassword.
    rewrite (findOne_after_issue (holds_reset (sha256 tok))); try assumption;
      try reflexivity; [|intros v; apply byResetToken_holds].
    unfold byResetToken, opt_string_eqb.
    cbn [passwordResetToken passwordResetExpire isActive set_passwordReset date_gt].
    fold tok. rewrite String.eqb_refl, Ha. cbn [andb]. rewrite andb_true_r.
    destruct (t_find <? now + m * 60 * 1000); reflexivity.
  - intros t Hv Ho.
    unfold resendVerification. rewrite Hv.
    cbn [createEmailVerificationToken fst snd emailVerificationToken
         emailVerificationExpire set_emailVerification].
    unfold verifyEmail.
    rewrite (findOne_after_issue (holds_verification (sha256 tok))); try assumption;
      try reflexivity; [|intros v; apply byVerificationToken_holds].
    unfold byVerificationToken, opt_string_eqb.
    cbn [emailVerificationToken emailVerificationExpire isActive
         set_emailVerification date_gt].
    fold tok. rewrite String.eqb_refl, Ha. cbn [andb]. rewrite andb_true_r.
    destruct (t <? now + 24 * 60 * 60 * 1000); reflexivity.
Qed.

Lemma single_use_token_lifetime_witness :
  (* issued at 1000 ms for 10 minutes: good at 600999, over at 601000 *)
  statusCode (snd (resetPassword Demo.sha256 Demo.bcrypt_hash TokenDemo.db1 Demo.env
                     TokenDemo.tok0 "Newpass1!" 600999 601100 601100)) = 200
  /\ statusCode (snd (resetPassword Demo.sha256 Demo.bcrypt_hash TokenDemo.db1 Demo.env
                        TokenDemo.tok0 "Newpass1!" 601000 601100 601100)) = 400
  /\ statusCode (snd (verifyEmail Demo.sha256 TokenDemo.dbv1 TokenDemo.tok0 86400999))
     = 200
  /\ statusCode (snd (verifyEmail Demo.sha256 TokenDemo.dbv1 TokenDemo.tok0 86401000))
     = 400.
Proof.
  destruct (single_use_token_lifetime Demo.sha256 Demo.bcrypt_hash Demo.db Demo.env
              Demo.alice 1000 Demo.rng0 eq_refl eq_refl eq_refl) as [R V].
  pose proof (fun t => R "alice@example.com" 10 "Newpass1!" t 601100 601100
                         eq_refl eq_refl eq_refl) as R'.
  pose proof (fun t => V t eq_refl eq_refl) as V'.
  split; [exact (R' 600999)|]. split; [exact (R' 601000)|].
  split; [exact (V' 86400999)|exact (V' 86401000)].
Defined.

(** ** A password reset and the next login *)

Lemma resetPassword_found sha256 bcrypt_hash db env tok pw (u : User)
    t_find t_save t_sign :
  ids_unique db = true ->
  findOne (byResetToken (sha256 tok) t_find) db = Some u ->
  findOne (byEmailActive (email u)) db = Some u ->
  let r := resetPassword sha256 bcrypt_hash db env tok pw t_find t_save t_sign in
  let u1 :=
    set_passwordReset None None
      (set_password (bcrypt_hash pw (saltRounds env)) (Some (t_save - 1000)) u) in
  statusCode (snd r) = 200
  /\ token (snd r) <> None
  /\ findOne (byEmailActive (email u)) (fst r) = Some u1.
Proof.
  intros Hu F Fe r u1. subst r. unfold resetPassword. rewrite F. cbn [fst snd].
  split; [reflexivity|]. split; [discriminate|].
  apply (findOne_updateOne_same (byEmailActive (email u))
           (fun doc =>
              set_passwordReset None None
                (set_password (bcrypt_hash pw (saltRounds env))
                   (Some (t_save - 1000)) doc)) db u Hu);
    [reflexivity|exact Fe].
Qed.

(** X8.  A password reset does not lift a lock: the reset of a locked
    account is answered 200 with a session token, yet until [lockUntil]
    every login for the account, also one with the new password, is refused
    as locked. *)
Theorem password_reset_keeps_lock :
  forall sha256 bcrypt_hash (db : Store) (env : Env) (tok pw : string) (u : User)
         (l t_find t_save t_sign : Z),
    ids_unique db = true ->
    findOne (byResetToken (sha256 tok) t_find) db = Some u ->
    findOne (byEmailActive (email u)) db = Some u ->
    lockUntil u = Some l ->
    let r := resetPassword sha256 bcrypt_hash db env tok pw t_find t_save t_sign in
    statusCode (snd r) = 200
    /\ token (snd r) <> None
    /\ forall bcrypt_compare pw' t t' t'',
        t < l ->
        login bcrypt_compare (fst r) env (email u) pw' t t' t''
        = (fst r, json 401 "fail" msg_locked).
Proof.
  intros sha256 bcrypt_hash db env tok pw u l t_find t_save t_sign Hu F Fe Hl r.
  destruct (resetPassword_found sha256 bcrypt_hash db env tok pw u
              t_find t_save t_sign Hu F Fe) as [S [T F1]].
  fold r in S, T, F1. split; [exact S|]. split; [exact T|].
  intros cmp pw' t t' t'' Ht.
  remember (fst r) as db1 eqn:E1.
  unfold login, getAuthenticated. rewrite F1.
  unfold isLocked, date_gt. cbn [lockUntil set_passwordReset set_password].
  rewrite Hl.
  replace (t <? l) with true by (symmetry; apply Z.ltb_lt; exact Ht).
  reflexivity.
Qed.

Lemma password_reset_keeps_lock_witness :
  let r := resetPassword Demo.sha256 Demo.bcrypt_hash ResetDemo.db Demo.env
             TokenDemo.tok1 "Newpass1!" 5000 5100 5200 in
  statusCode (snd r) = 200
  /\ login Demo.bcrypt_compare (fst r) Demo.env "alice@example.com" "Newpass1!"
       6000 6100 6200
     = (fst r, json 401 "fail" msg_locked).
Proof.
  cbv zeta.
  destruct (password_reset_keeps_lock Demo.sha256 Demo.bcrypt_hash ResetDemo.db
              Demo.env TokenDemo.tok1 "Newpass1!" ResetDemo.alice_locked_reset
              7200000 5000 5100 5200 eq_refl eq_refl eq_refl eq_refl)
    as [A [_ B]].
  split; [exact A|].
  apply (B Demo.bcrypt_compare "Newpass1!" 6000 6100 6200). lia.
Defined.

(** X9.  After a password reset of an account that is not locked, a login
    with the new password succeeds and a login with any password that the
    new digest does not match is answered [Invalid credentials], provided
    [bcrypt.compare] accepts the new password against its own digest. *)
Theorem reset_then_login :
  forall sha256 bcrypt_hash bcrypt_compare (db : Store) (env : Env)
         (tok pw : string) (u : User) (t_find t_save t_sign : Z),
    ids_unique db = true ->
    findOne (byResetToken (sha256 tok) t_find) db = Some u ->
    findOne (byEmailActive (email u)) db = Some u ->
    bcrypt_compare pw (bcrypt_hash pw (saltRounds env)) = Some true ->
    let db1 :=
      fst (resetPassword sha256 bcrypt_hash db env tok pw t_find t_save t_sign) in
    forall t_lock t_done t_sign',
      isLocked u t_lock = false ->
      statusCode (snd (login bcrypt_compare db1 env (email u) pw
                         t_lock t_done t_sign')) = 200
      /\ forall other,
          bcrypt_compare other (bcrypt_hash pw (saltRounds env)) = Some false ->
          snd (login bcrypt_compare db1 env (email u) other t_lock t_done t_sign')
          = json 401 "fail" msg_invalid.
Proof.
  intros sha256 bcrypt_hash cmp db env tok pw u t_find t_save t_sign
    Hu F Fe Hc db1 t_lock t_done t_sign' HL.
  destruct (resetPassword_found sha256 bcrypt_hash db env tok pw u
              t_find t_save t_sign Hu F Fe) as [_ [_ F1]].
  fold db1 in F1. remember db1 as d eqn:Ed. clear Ed db1.
  assert (isLocked
            (set_passwordReset None None
               (set_password (bcrypt_hash pw (saltRounds env))
                  (Some (t_save - 1000)) u)) t_lock = false) as HL1 by exact HL.
  split.
  - unfold login, getAuthenticated, comparePassword. rewrite F1, HL1.
    cbn [password set_passwordReset set_password]. rewrite Hc. reflexivity.
  - intros other Ho.
    unfold login, getAuthenticated, comparePassword. rewrite F1, HL1.
    cbn [password set_passwordReset set_password]. rewrite Ho. reflexivity.
Qed.

Lemma reset_then_login_witness :
  let db3 := fst (resetPassword Demo.sha256 Demo.bcrypt_hash TokenDemo.db2 Demo.env
                    TokenDemo.tok1 "Newpass1!" 3400 3500 3600) in
  statusCode (snd (login Demo.bcrypt_compare db3 Demo.env "alice@example.com"
                     "Newpass1!" 4000 4100 4200)) = 200
  /\ snd (login Demo.bcrypt_compare db3 Demo.env "alice@example.com"
            "Abcdef1!" 4000 4100 4200)
     = json 401 "fail" msg_invalid.
Proof.
  cbv zeta.
  destruct (reset_then_login Demo.sha256 Demo.bcrypt_hash Demo.bcrypt_compare
              TokenDemo.db2 Demo.env TokenDemo.tok1 "Newpass1!" TokenDemo.alice2
              3400 3500 3600 eq_refl eq_refl eq_refl eq_refl
              4000 4100 4200 eq_refl) as [A B].
  split; [exact A|]. apply B. reflexivity.
Defined.

(** ** The token of a login at the gate *)

(** X10.  The token that a successful login returns opens the gate for the
    account that logged in, from the login until [expiresIn] seconds after
    it; from then on the gate answers that the token has expired.  The
    account's password must not have been changed after the login's clock
    second. *)
Theorem login_token_at_the_gate :
  forall bcrypt_compare (db : Store) (env : Env) (e pw : string) (u : User)
         (t_lock t_done t_sign : Z),
    ids_unique db = true ->
    findOne (byEmailActive e) db = Some u ->
    isLocked u t_lock = false ->
    bcrypt_compare pw (password u) = Some true ->
    changedPasswordAfter u (t_sign / 1000) = false ->
    let r := login bcrypt_compare db env e pw t_lock t_done t_sign in
    exists tk u1,
      token (snd r) = Some tk
      /\ findById (_id u) (fst r) = Some u1
      /\ lastLoginAt u1 = Some t_done
      /\ forall req now,
          request_token req = Some tk ->
          protect (fst r) env req now
          = if now / 1000 <? t_sign / 1000 + jwtExpiresIn env
            then Next u1
            else Respond (json 401 "fail"
                            "Your token has expired! Please log in again.").
Proof.
  intros cmp db env e pw u t_lock t_done t_sign Hu F HL Hc Hp r. subst r.
  pose proof (findById_of_findOne _ db u Hu F) as Fu.
  pose proof (findOne_In _ _ _ F) as [_ Qu].
  apply byEmailActive_active in Qu.
  unfold login, getAuthenticated, comparePassword. rewrite F, HL, Hc.
  cbn [auth_user fst snd createSendToken token].
  set (db1 := if 0 <? attempts u
              then updateOne (_id u) resetLoginAttempts db else db).
  set (u0 := if 0 <? attempts u then resetLoginAttempts u else u).
  assert (findById (_id u) db1 = Some u0) as F0.
  { subst db1 u0. destruct (0 <? attempts u); [|exact Fu].
    apply findById_updateOne; [reflexivity|exact Fu]. }
  assert (isActive u0 = true /\ passwordChangedAt u0 = passwordChangedAt u) as [A0 P0].
  { subst u0. destruct (0 <? attempts u); split; assumption || reflexivity. }
  exists (generateAuthToken (set_lastLoginAt (Some t_done) u) env t_sign),
         (set_lastLoginAt (Some t_done) u0).
  split; [reflexivity|].
  split; [apply findById_updateOne; [reflexivity|exact F0]|].
  split; [reflexivity|].
  intros req now Hreq. unfold protect. rewrite Hreq.
  unfold generateAuthToken, jwt_sign, jwt_verify. rewrite String.eqb_refl.
  cbn [exp jwt_id iat _id set_lastLoginAt].
  destruct (now / 1000 <? t_sign / 1000 + jwtExpiresIn env) eqn:E.
  - replace (t_sign / 1000 + jwtExpiresIn env <=? now / 1000) with false
      by (symmetry; apply Z.leb_gt; apply Z.ltb_lt; exact E).
    cbn [jwt_id iat].
    rewrite (findById_updateOne (_id u) (set_lastLoginAt (Some t_done)) db1 u0);
      [|reflexivity|exact F0].
    cbn [isActive set_lastLoginAt]. rewrite A0. cbn [negb].
    unfold changedPasswordAfter in *.
    cbn [passwordChangedAt set_lastLoginAt]. rewrite P0.
    destruct (passwordChangedAt u) as [c|]; [|reflexivity].
    cbv zeta in Hp |- *. rewrite Hp. reflexivity.
  - replace (t_sign / 1000 + jwtExpiresIn env <=? now / 1000) with true
      by (symmetry; apply Z.leb_le; apply Z.ltb_ge; exact E).
    reflexivity.
Qed.

Lemma login_token_at_the_gate_witness :
  let r := login Demo.bcrypt_compare Demo.db Demo.env "alice@example.com"
             "Abcdef1!" 5000000 5000100 5000200 in
  exists tk u1,
    token (snd r) = Some tk
    /\ protect (fst r) Demo.env (Demo.bearer tk) 609799999 = Next u1
    /\ granted (protect (fst r) Demo.env (Demo.bearer tk) 609800000) = false.
Proof.
  cbv zeta.
  destruct (login_token_at_the_gate Demo.bcrypt_compare Demo.db Demo.env
              "alice@example.com" "Abcdef1!" Demo.alice 5000000 5000100 5000200
              eq_refl eq_refl eq_refl eq_refl eq_refl)
    as [tk [u1 [T [_ [_ G]]]]].
  exists tk, u1. split; [exact T|]. split.
  - rewrite (G (Demo.bearer tk) 609799999 eq_refl). reflexivity.
  - rewrite (G (Demo.bearer tk) 609800000 eq_refl). reflexivity.
Defined.

(** ** A verified e-mail *)

(** X11.  Once [verifyEmail] has accepted a token, the account passes
    [requireEmailVerification], and [resendVerification] for it is answered
    [Email is already verified] and issues no token. *)
Theorem verified_email_passes_gate :
  forall sha256 (db : Store) (tok : string) (u : User) (now : Z),
    ids_unique db = true ->
    findOne (byVerificationToken (sha256 tok) now) db = Some u ->
    let db1 := fst (verifyEmail sha256 db tok now) in
    exists u1,
      findById (_id u) db1 = Some u1
      /\ requireEmailVerification u1 = None
      /\ forall t rng,
          resendVerification sha256 db1 u1 t rng
          = (db1, json 400 "fail" "Email is already verified").
Proof.
  intros sha256 db tok u now Hu F db1. subst db1.
  unfold verifyEmail. rewrite F. cbn [fst].
  exists (set_emailVerification None None (set_isEmailVerified true u)).
  split; [|split; [reflexivity|intros t rng; reflexivity]].
  apply (findById_updateOne (_id u)
           (fun doc => set_emailVerification None None (set_isEmailVerified true doc)));
    [reflexivity|].
  apply (findById_of_findOne (byVerificationToken (sha256 tok) now)); assumption.
Qed.

Lemma verified_email_passes_gate_witness :
  requireEmailVerification TokenDemo.alicev1
  = Some (json 403 "fail" "Please verify your email address to access this feature")
  /\ exists u1,
      findById 1 (fst (verifyEmail Demo.sha256 TokenDemo.dbv1 TokenDemo.tok0 3000))
      = Some u1
      /\ requireEmailVerification u1 = None.
Proof.
  split; [reflexivity|].
  destruct (verified_email_passes_gate Demo.sha256 TokenDemo.dbv1 TokenDemo.tok0
              TokenDemo.alicev1 3000 eq_refl eq_refl) as [u1 [A [B _]]].
  exists u1. split; [exact A|exact B].
Defined.

(** ** The administrator routes *)

(** X12.  [PATCH /:id/role] changes nothing in the collection unless the
    gate has let the request through for an active account whose role is
    [admin]; an authenticated account with the role [user] is answered
    403. *)
Theorem only_admin_changes_roles :
  forall (db : Store) (env : Env) (req : Request) (now : Z) (id : nat) (r : Role),
    let res := admin_route db env req now (fun _ => updateRole db id r) in
    (fst res = db
     \/ exists admin,
         protect db env req now = Next admin
         /\ role admin = RoleAdmin /\ isActive admin = true)
    /\ (forall u, protect db env req now = Next u -> role u = RoleUser ->
                  res = (db, json 403 "fail"
                               "You do not have permission to perform this action")).
Proof.
  intros db env req now id r res. subst res.
  unfold admin_route, private_route.
  destruct (protect db env req now) as [u|resp] eqn:P.
  - pose proof (protect_next_inversion db env req now u P)
      as [p [_ [_ [_ [Ha _]]]]].
    unfold restrictTo. destruct (role u) eqn:R; cbn.
    + split; [left; reflexivity|]. intros v Hv _. reflexivity.
    + split; [right; exists u; repeat split; assumption|].
      intros v Hv Rv. injection Hv as <-. congruence.
  - split; [left; reflexivity|]. intros u Hu. discriminate.
Qed.

(** ** Paging the list of users *)

Lemma firstn_skipn_add {A : Type} (a b : nat) (l : list A) :
  (firstn a l ++ firstn b (skipn a l))%list = firstn (a + b) l.
Proof.
  revert l. induction a as [|a IH]; intros l; [reflexivity|].
  destruct l as [|x l]; [destruct b; reflexivity|].
  cbn [firstn skipn Nat.add app]. rewrite IH. reflexivity.
Qed.

Lemma chunks_concat {A : Type} (n : nat) (l : list A) (m : nat) :
  List.concat (map (fun k => firstn n (skipn (k * n) l)) (seq 0 m)) = firstn (m * n) l.
Proof.
  induction m as [|m IH]; [reflexivity|].
  rewrite seq_S, map_app, List.concat_app, IH. cbn [map List.concat Nat.add].
  rewrite app_nil_r, firstn_skipn_add. f_equal. lia.
Qed.

Lemma ceil_div_covers (a b : Z) : 0 < b -> a <= ceil_div a b * b < a + b.
Proof.
  intros Hb. unfold ceil_div. Z.to_euclidean_division_equations. nia.
Qed.

Lemma users_of_page_slice (matching : list User) (k : nat) (ql : option Z) :
  1 <= parseIntOr ql 10 ->
  users_of_page matching (Some (Z.of_nat (S k))) ql
  = firstn (Z.to_nat (parseIntOr ql 10))
      (skipn (k * Z.to_nat (parseIntOr ql 10)) matching).
Proof.
  intros Hl. unfold users_of_page, listUsers.
  set (limit := parseIntOr ql 10) in *.
  assert (parseIntOr (Some (Z.of_nat (S k))) 1 = Z.of_nat (S k)) as Ep
    by (cbn; reflexivity).
  rewrite Ep.
  replace (Z.of_nat (S k) - 1) with (Z.of_nat k) by lia.
  replace (Z.of_nat k * limit <? 0) with false
    by (symmetry; apply Z.ltb_ge; nia).
  f_equal; [lia|]. f_equal. rewrite Z2Nat.inj_mul by lia.
  rewrite Nat2Z.id. reflexivity.
Qed.

(** X13.  For a page size of at least 1, the pages 1 to
    [Math.ceil(total / limit)] of [GET /], put one after the other, are the
    matching users, each once and in order; no page holds more than [limit]
    users, and every page after the last is empty. *)
Theorem listUsers_pages_partition :
  forall (matching : list User) (query_limit : option Z),
    let limit := parseIntOr query_limit 10 in
    let pages := ceil_div (Z.of_nat (List.length matching)) limit in
    1 <= limit ->
    List.concat (map (fun k => users_of_page matching (Some (Z.of_nat (S k))) query_limit)
              (seq 0 (Z.to_nat pages)))
    = matching
    /\ (forall k,
          Z.of_nat (List.length
                      (users_of_page matching (Some (Z.of_nat (S k))) query_limit))
          <= limit)
    /\ (forall k, pages < Z.of_nat (S k) ->
          users_of_page matching (Some (Z.of_nat (S k))) query_limit = []).
Proof.
  intros matching ql limit pages Hl.
  pose proof (ceil_div_covers (Z.of_nat (List.length matching)) limit) as Hc.
  fold pages in Hc. specialize (Hc ltac:(lia)).
  split; [|split].
  - rewrite (map_ext _ (fun k => firstn (Z.to_nat limit)
                                   (skipn (k * Z.to_nat limit) matching)))
      by (intros k; apply users_of_page_slice; exact Hl).
    rewrite chunks_concat. apply firstn_all2.
    rewrite <- Z2Nat.inj_mul by lia.
    apply Nat2Z.inj_le. rewrite Z2Nat.id by nia. lia.
  - intros k. rewrite users_of_page_slice by exact Hl.
    rewrite List.length_firstn. lia.
  - intros k Hk. rewrite users_of_page_slice by exact Hl.
    rewrite skipn_all2; [apply firstn_nil|].
    apply Nat2Z.inj_le. rewrite Nat2Z.inj_mul, Z2Nat.id by lia. nia.
Qed.

Lemma listUsers_pages_partition_witness :
  (users_of_page [Demo.alice; Demo.bob; Demo.alice] (Some 1) (Some 2)
   ++ users_of_page [Demo.alice; Demo.bob; Demo.alice] (Some 2) (Some 2))%list
  = [Demo.alice; Demo.bob; Demo.alice]
  /\ users_of_page [Demo.alice; Demo.bob; Demo.alice] (Some 3) (Some 2) = [].
Proof.
  destruct (listUsers_pages_partition [Demo.alice; Demo.bob; Demo.alice] (Some 2))
    as [A [_ C]]; [cbn; lia|].
  split.
  - cbn [seq map List.concat] in A. change (Z.to_nat _) with 2%nat in A.
    cbn [seq map List.concat] in A. rewrite app_nil_r in A. exact A.
  - apply (C 2%nat). vm_compute. reflexivity.
Defined.

(** ** Closing an account *)

Lemma string_length_append (a b : string) :
  String.length (a ++ b)%string = (String.length a + String.length b)%nat.
Proof. induction a as [|c a IH]; [reflexivity|]. cbn. rewrite IH. reflexivity. Qed.

Lemma deleted_name_differs (now : Z) (name : string) : deleted_name now name <> name.
Proof.
  intros E. apply (f_equal String.length) in E. unfold deleted_name in E.
  rewrite !string_length_append in E. cbn [String.length] in E. lia.
Qed.

Lemma string_of_uint_length (d : Decimal.uint) :
  String.length (NilEmpty.string_of_uint d) = Decimal.nb_digits d.
Proof. induction d; cbn; congruence. Qed.

Lemma of_lu_bound (d : Decimal.uint) :
  (DecimalPos.Unsigned.of_lu d < 10 ^ N.of_nat (Decimal.nb_digits d))%N.
Proof.
  induction d; cbn [DecimalPos.Unsigned.of_lu Decimal.nb_digits];
    try (rewrite Nnat.Nat2N.inj_succ, N.pow_succ_r'; lia).
  cbn. lia.
Qed.

Lemma to_uint_bound (p : positive) :
  (N.pos p < 10 ^ N.of_nat (Decimal.nb_digits (Pos.to_uint p)))%N.
Proof.
  rewrite <- (DecimalPos.Unsigned.of_to p) at 1.
  rewrite DecimalPos.Unsigned.of_uint_alt, <- DecimalFacts.nb_digits_rev.
  apply of_lu_bound.
Qed.

(** The decimal form of a clock reading from 10^12 ms on (September 2001)
    has at least 13 digits. *)
Lemma timestamp_length (t : Z) :
  10 ^ 12 <= t ->
  (13 <= String.length (NilZero.string_of_int (Z.to_int t)))%nat.
Proof.
  intros H. destruct t as [|p|p]; try lia.
  cbn [Z.to_int NilZero.string_of_int]. unfold NilZero.string_of_uint.
  pose proof (DecimalPos.Unsigned.to_uint_nonnil p) as Hn.
  pose proof (to_uint_bound p) as Hb.
  pose proof (string_of_uint_length (Pos.to_uint p)) as Hl.
  destruct (Pos.to_uint p) as [|d|d|d|d|d|d|d|d|d|d] eqn:E; [congruence|..];
    rewrite Hl;
    (destruct (Nat.le_gt_cases 13 (Decimal.nb_digits (Pos.to_uint p))) as [G|G];
     [rewrite E in G; exact G|
      exfalso;
      assert (10 ^ N.of_nat (Decimal.nb_digits (Pos.to_uint p)) <= 10 ^ 12)%N
        by (apply N.pow_le_mono_r; lia);
      rewrite E in *; lia]).
Qed.

Lemma deleted_name_length (t : Z) (name : string) :
  (10 + String.length name <= String.length (deleted_name t name))%nat
  /\ (10 ^ 12 <= t ->
      (22 + String.length name <= String.length (deleted_name t name))%nat).
Proof.
  unfold deleted_name. rewrite !string_length_append. cbn [String.length].
  split.
  - assert (1 <= String.length (NilZero.string_of_int (Z.to_int t)))%nat; [|lia].
    destruct t as [|p|p]; [cbn; lia| |cbn [Z.to_int NilZero.string_of_int String.length]; lia].
    cbn [Z.to_int NilZero.string_of_int]. unfold NilZero.string_of_uint.
    pose proof (DecimalPos.Unsigned.to_uint_nonnil p) as Hn.
    destruct (Pos.to_uint p); [congruence|..]; cbn [NilEmpty.string_of_uint String.length]; lia.
  - intros H. pose proof (timestamp_length t H). lia.
Qed.

(** X14.  [DELETE /account] with the right password, when the renamed
    e-mail and username pass the validators of the schema and collide with
    no other document: the answer is 200, the account is inactive with its
    password digest as it was, no active account is found under the old
    e-mail, and, the setters leaving the renamed address as it is, no
    document carries the old e-mail any more.  A wrong password is
    answered 401 and a failed comparison 500, both with nothing written. *)
Theorem closing_account_frees_email :
  forall bcrypt_compare isEmail toLowerCase trim (db : Store)
         (req_user u : User) (pw : string) (t_email t_username : Z),
    ids_unique db = true ->
    findById (_id req_user) db = Some u ->
    (forall v, In v db -> _id v <> _id u -> email v <> email u) ->
    Closing.validates isEmail (Closing.new_email toLowerCase trim u t_email)
      (Closing.new_username trim u t_username) = true ->
    Closing.duplicate_key db u (Closing.new_email toLowerCase trim u t_email)
      (Closing.new_username trim u t_username) = false ->
    let r := Closing.closeAccount bcrypt_compare isEmail toLowerCase trim db
               req_user pw t_email t_username in
    match bcrypt_compare pw (password u) with
    | Some true =>
        snd r = json 200 "success" "Account deactivated successfully"
        /\ findOne (byEmailActive (email u)) (fst r) = None
        /\ (Closing.new_email toLowerCase trim u t_email
            = deleted_name t_email (email u) ->
            forall v, In v (fst r) -> email v <> email u)
        /\ exists u1, findById (_id u) (fst r) = Some u1
                      /\ isActive u1 = false /\ password u1 = password u
    | Some false => r = (db, json 401 "fail" "Password is incorrect")
    | None => r = (db, json 500 "error" "Failed to deactivate account")
    end.
Proof.
  intros cmp isEmail lower trim db req_user u pw t1 t2 Hu F Ho Hv Hd r.
  assert (_id u = _id req_user) as Hid.
  { unfold findById in F. apply find_some in F. destruct F as [_ F].
    apply Nat.eqb_eq in F. exact F. }
  assert (In u db) as Hin.
  { unfold findById in F. apply find_some in F. exact (proj1 F). }
  subst r. unfold Closing.closeAccount, comparePassword. rewrite F.
  destruct (cmp pw (password u)) as [[|]|]; [|reflexivity|reflexivity].
  cbv zeta. rewrite Hv, Hd. cbn [andb negb fst snd].
  split; [reflexivity|]. split; [|split].
  - apply findOne_none_intro. intros v Hin'.
    apply In_updateOne in Hin'; [|exact Hu].
    destruct Hin' as [[w [Hw [Ew ->]]]|[Hin' Hne]].
    + unfold byEmailActive. cbn [isActive set_identity]. apply andb_false_r.
    + unfold byEmailActive. replace (String.eqb (email v) (email u)) with false;
        [reflexivity|].
      symmetry. apply String.eqb_neq. apply Ho; assumption.
  - intros He v Hin'. apply In_updateOne in Hin'; [|exact Hu].
    destruct Hin' as [[w [Hw [Ew ->]]]|[Hin' Hne]].
    + cbn [email set_identity]. rewrite He. apply deleted_name_differs.
    + apply Ho; assumption.
  - eexists. split.
    + apply findById_updateOne; [reflexivity|].
      unfold findById in *. rewrite Hid. exact F.
    + split; reflexivity.
Qed.

Lemma closing_account_frees_email_witness :
  let r := Closing.closeAccount Demo.bcrypt_compare Closing.demo_isEmail
             Closing.demo_toLowerCase Closing.demo_trim Closing.db Demo.alice
             "Abcdef1!" 1700000000000 1700000000001 in
  statusCode (snd r) = 200
  /\ (forall v, In v (fst r) -> email v <> "alice@example.com").
Proof.
  pose proof (closing_account_frees_email Demo.bcrypt_compare Closing.demo_isEmail
                Closing.demo_toLowerCase Closing.demo_trim Closing.db Demo.alice
                Demo.alice "Abcdef1!" 1700000000000 1700000000001
                eq_refl eq_refl) as H.
  assert (forall v, In v Closing.db -> _id v <> _id Demo.alice ->
                    email v <> email Demo.alice) as Ho.
  { intros v [<-|[<-|[<-|[]]]] Hne; [congruence|discriminate|discriminate]. }
  specialize (H Ho ltac:(vm_compute; reflexivity) ltac:(vm_compute; reflexivity)).
  cbv zeta in H.
  change (Demo.bcrypt_compare "Abcdef1!" (password Demo.alice)) with (Some true) in H.
  cbv iota in H. destruct H as [A [_ [B _]]].
  cbv zeta. split.
  - rewrite A. reflexivity.
  - apply B. vm_compute. reflexivity.
Defined.

(** X19.  An account whose username has more than eight characters cannot
    be closed at any clock reading from 10^12 ms on, and one whose username
    has more than twenty characters at no clock reading at all: the renamed
    username is longer than the 30 characters that the schema allows, so
    [DELETE /account] with the right password is answered 500, and whatever
    the password nothing is written. *)
Theorem long_username_blocks_closing :
  forall bcrypt_compare isEmail toLowerCase trim (db : Store)
         (req_user u : User) (n pw : string) (t_email t_username : Z),
    findById (_id req_user) db = Some u ->
    username u = Some n ->
    trim (deleted_name t_username n) = deleted_name t_username n ->
    (21 <= String.length n)%nat
    \/ (10 ^ 12 <= t_username /\ (9 <= String.length n)%nat) ->
    let r := Closing.closeAccount bcrypt_compare isEmail toLowerCase trim db
               req_user pw t_email t_username in
    fst r = db
    /\ statusCode (snd r) <> 200
    /\ (bcrypt_compare pw (password u) = Some true ->
        snd r = json 500 "error" "Failed to deactivate account").
Proof.
  intros cmp isEmail lower trim db req_user u n pw t1 t2 F Hn Ht Hlen r.
  assert (Closing.validates isEmail (Closing.new_email lower trim u t1)
            (Closing.new_username trim u t2) = false) as Hv.
  { unfold Closing.validates, Closing.new_username. rewrite Hn.
    destruct (String.eqb n EmptyString) eqn:E.
    - apply String.eqb_eq in E. subst n. cbn in Hlen. lia.
    - rewrite Ht. unfold Closing.username_valid.
      destruct (deleted_name_length t2 n) as [L1 L2].
      replace (String.length (deleted_name t2 n) <=? 30)%nat with false.
      + cbn [andb]. repeat rewrite andb_false_r. reflexivity.
      + symmetry. apply Nat.leb_gt.
        destruct Hlen as [Hlen|[Hclock Hlen]]; [lia|].
        specialize (L2 Hclock). lia. }
  subst r. unfold Closing.closeAccount, comparePassword. rewrite F.
  destruct (cmp pw (password u)) as [[|]|].
  - cbv zeta. rewrite Hv. cbn [andb fst snd].
    split; [reflexivity|]. split; [cbn; lia|]. intros _. reflexivity.
  - cbn. split; [reflexivity|]. split; [lia|]. intros H. discriminate H.
  - cbn. split; [reflexivity|]. split; [lia|]. intros H. discriminate H.
Qed.

Lemma long_username_blocks_closing_witness :
  Closing.closeAccount Demo.bcrypt_compare Closing.demo_isEmail
    Closing.demo_toLowerCase Closing.demo_trim Closing.db Closing.alexander
    "Zyxwvu9!" 1700000000000 1700000000001
  = (Closing.db, json 500 "error" "Failed to deactivate account").
Proof.
  pose proof (long_username_blocks_closing Demo.bcrypt_compare Closing.demo_isEmail
                Closing.demo_toLowerCase Closing.demo_trim Closing.db
                Closing.alexander Closing.alexander "alexander" "Zyxwvu9!"
                1700000000000 1700000000001 eq_refl eq_refl
                ltac:(vm_compute; reflexivity)
                ltac:(right; split; [lia|cbn; lia])) as H.
  cbv zeta in H. destruct H as [A [_ C]].
  rewrite (surjective_pairing (Closing.closeAccount _ _ _ _ _ _ _ _ _)).
  rewrite A, (C eq_refl). reflexivity.
Defined.

(** ** Tasks *)

Lemma Tasks_find_save (db : list Tasks.Task) (q : Tasks.Task -> bool)
    (t t' : Tasks.Task) :
  Tasks.ids_unique db = true ->
  find q db = Some t ->
  Tasks._id t' = Tasks._id t ->
  (forall d, q d = true -> Tasks.user d = Tasks.user t) ->
  Tasks.user t' = Tasks.user t ->
  forall uid, Tasks.user t <> uid ->
    filter (fun d => Nat.eqb (Tasks.user d) uid) (Tasks.save t' db)
    = filter (fun d => Nat.eqb (Tasks.user d) uid) db.
Proof.
  intros Hu F Hid Hq Hus uid Hne.
  induction db as [|d rest IH]; [reflexivity|].
  cbn [Tasks.ids_unique] in Hu. apply andb_true_iff in Hu. destruct Hu as [Hd Hu].
  apply negb_true_iff in Hd.
  cbn [find] in F. cbn [Tasks.save]. rewrite Hid.
  destruct (q d) eqn:Qd.
  - injection F as ->. rewrite Nat.eqb_refl. cbn [filter]. rewrite Hus.
    replace (Nat.eqb (Tasks.user t) uid) with false
      by (symmetry; apply Nat.eqb_neq; exact Hne).
    reflexivity.
  - pose proof (find_some _ _ F) as [Hin _].
    destruct (Nat.eqb (Tasks._id d) (Tasks._id t)) eqn:E.
    + exfalso. apply Nat.eqb_eq in E.
      assert (existsb (fun v => Nat.eqb (Tasks._id v) (Tasks._id d)) rest = true)
        as C.
      { apply existsb_exists. exists t. split; [exact Hin|].
        apply Nat.eqb_eq. congruence. }
      congruence.
    + cbn [filter]. rewrite (IH Hu F). reflexivity.
Qed.

Lemma Tasks_filter_removeFirst (db : list Tasks.Task) (id uid other : nat) :
  other <> uid ->
  filter (fun d => Nat.eqb (Tasks.user d) other)
    (Tasks.removeFirst (Tasks.owned id uid) db)
  = filter (fun d => Nat.eqb (Tasks.user d) other) db.
Proof.
  intros Hne. induction db as [|d rest IH]; [reflexivity|].
  cbn [Tasks.removeFirst]. destruct (Tasks.owned id uid d) eqn:Q.
  - unfold Tasks.owned in Q. apply andb_true_iff in Q. destruct Q as [_ Q].
    apply Nat.eqb_eq in Q. cbn [filter].
    replace (Nat.eqb (Tasks.user d) other) with false
      by (symmetry; apply Nat.eqb_neq; congruence).
    reflexivity.
  - cbn [filter]. rewrite IH. reflexivity.
Qed.

Lemma Tasks_toggled_owner (now : Z) (t : Tasks.Task) :
  let t' := if Tasks.completed t then Tasks.markPending now t
            else Tasks.markCompleted now t in
  Tasks._id t' = Tasks._id t /\ Tasks.user t' = Tasks.user t
  /\ Tasks.dueDate t' = Tasks.dueDate t
  /\ Tasks.completed t' = negb (Tasks.completed t)
  /\ Tasks.completedAt t' = if Tasks.completed t then None else Some now.
Proof. destruct t as [i u [|] [c|] d]; cbn; repeat split; reflexivity. Qed.

(** X15.  The routes that toggle and delete a task act on the caller's own
    tasks only: whatever the task id in the request, the tasks of every
    other user are the same after the request as before. *)
Theorem tasks_of_others_untouched :
  forall (db : list Tasks.Task) (uid id other : nat) (now : Z),
    Tasks.ids_unique db = true ->
    other <> uid ->
    filter (fun d => Nat.eqb (Tasks.user d) other) (fst (Tasks.toggle db uid id now))
    = filter (fun d => Nat.eqb (Tasks.user d) other) db
    /\ filter (fun d => Nat.eqb (Tasks.user d) other) (fst (Tasks.delete db uid id))
       = filter (fun d => Nat.eqb (Tasks.user d) other) db.
Proof.
  intros db uid id other now Hu Hne. split.
  - unfold Tasks.toggle.
    destruct (find (Tasks.owned id uid) db) as [t|] eqn:F; [|reflexivity].
    cbn [fst].
    pose proof (find_some _ _ F) as [_ Qt].
    unfold Tasks.owned in Qt. apply andb_true_iff in Qt. destruct Qt as [_ Qt].
    apply Nat.eqb_eq in Qt.
    destruct (Tasks_toggled_owner now t) as [Hid [Hus _]].
    apply (Tasks_find_save db (Tasks.owned id uid) t); try assumption.
    + intros d Qd. unfold Tasks.owned in Qd. apply andb_true_iff in Qd.
      destruct Qd as [_ Qd]. apply Nat.eqb_eq in Qd. congruence.
    + congruence.
  - unfold Tasks.delete.
    destruct (find (Tasks.owned id uid) db); [|reflexivity].
    cbn [fst]. apply Tasks_filter_removeFirst. exact Hne.
Qed.

Lemma tasks_of_others_untouched_witness :
  (* user 8 asks to toggle and to delete task 1, which is of user 7 *)
  Tasks.toggle Tasks.sample 8 1 1000 = (Tasks.sample, (404, "Task not found"))
  /\ filter (fun d => Nat.eqb (Tasks.user d) 7)
       (fst (Tasks.toggle Tasks.sample 8 2 1000))
     = filter (fun d => Nat.eqb (Tasks.user d) 7) Tasks.sample
  /\ filter (fun d => Nat.eqb (Tasks.user d) 7)
       (fst (Tasks.delete Tasks.sample 8 2))
     = filter (fun d => Nat.eqb (Tasks.user d) 7) Tasks.sample.
Proof.
  split; [reflexivity|].
  apply (tasks_of_others_untouched Tasks.sample 8 2 7 1000 eq_refl).
  discriminate.
Defined.

Lemma Tasks_find_after_save (db : list Tasks.Task) (id uid : nat)
    (t t' : Tasks.Task) :
  find (Tasks.owned id uid) db = Some t ->
  Tasks._id t' = Tasks._id t -> Tasks.user t' = Tasks.user t ->
  Tasks.ids_unique db = true ->
  find (Tasks.owned id uid) (Tasks.save t' db) = Some t'.
Proof.
  intros F Hid Hus Hu.
  pose proof (find_some _ _ F) as [_ Qt].
  assert (Tasks.owned id uid t' = true) as Qt'
    by (unfold Tasks.owned in *; rewrite Hid, Hus; exact Qt).
  induction db as [|d rest IH]; [discriminate|].
  cbn [Tasks.ids_unique] in Hu. apply andb_true_iff in Hu. destruct Hu as [Hd Hu].
  apply negb_true_iff in Hd.
  cbn [find] in F. cbn [Tasks.save]. rewrite Hid.
  destruct (Tasks.owned id uid d) eqn:Qd.
  - injection F as ->. rewrite Nat.eqb_refl. cbn [find]. rewrite Qt'. reflexivity.
  - pose proof (find_some _ _ F) as [Hin _].
    destruct (Nat.eqb (Tasks._id d) (Tasks._id t)) eqn:E.
    + exfalso. apply Nat.eqb_eq in E.
      assert (existsb (fun v => Nat.eqb (Tasks._id v) (Tasks._id d)) rest = true)
        as C.
      { apply existsb_exists. exists t. split; [exact Hin|].
        apply Nat.eqb_eq. congruence. }
      congruence.
    + cbn [find]. rewrite Qd. apply IH; assumption.
Qed.

(** X16.  Toggling a task of the caller flips [completed] and keeps
    [completedAt] in step: a task toggled to completed has [completedAt] set
    to the time of the request and the status [Completed] whatever its due
    date, a task toggled to pending has no [completedAt]; the owner and the
    due date stay. *)
Theorem toggle_flips_completion :
  forall (db : list Tasks.Task) (uid id : nat) (now : Z) (t : Tasks.Task),
    Tasks.ids_unique db = true ->
    find (Tasks.owned id uid) db = Some t ->
    exists t',
      find (Tasks.owned id uid) (fst (Tasks.toggle db uid id now)) = Some t'
      /\ Tasks.completed t' = negb (Tasks.completed t)
      /\ Tasks.completedAt t' = (if Tasks.completed t then None else Some now)
      /\ (Tasks.completed t = false ->
          forall later, Tasks.status t' later = Tasks.Completed)
      /\ Tasks.user t' = Tasks.user t /\ Tasks.dueDate t' = Tasks.dueDate t
      /\ fst (snd (Tasks.toggle db uid id now)) = 200.
Proof.
  intros db uid id now t Hu F.
  destruct (Tasks_toggled_owner now t) as [Hid [Hus [Hd [Hc Ha]]]].
  unfold Tasks.toggle. rewrite F. cbn [fst snd].
  eexists. split; [apply (Tasks_find_after_save db id uid t); assumption|].
  split; [exact Hc|]. split; [exact Ha|]. split.
  - intros Hf later. unfold Tasks.status. rewrite Hc, Hf. reflexivity.
  - repeat split; assumption.
Qed.

Lemma toggle_flips_completion_witness :
  (* task 1 of user 7 was due at 500 and is completed at 1000 *)
  Tasks.status (Tasks.mkTask 1 7 false None (Some 500)) 1000 = Tasks.Overdue
  /\ exists t',
      find (Tasks.owned 1 7) (fst (Tasks.toggle Tasks.sample 7 1 1000)) = Some t'
      /\ Tasks.completed t' = true
      /\ Tasks.completedAt t' = Some 1000
      /\ Tasks.status t' 2000 = Tasks.Completed.
Proof.
  split; [reflexivity|].
  destruct (toggle_flips_completion Tasks.sample 7 1 1000
              (Tasks.mkTask 1 7 false None (Some 500)) eq_refl eq_refl)
    as [t' [A [B [C [D _]]]]].
  exists t'. split; [exact A|]. split; [exact B|]. split; [exact C|].
  apply D. reflexivity.
Defined.

(** ** A wrong password once the lock has run out *)

(** X17.  A wrong password given after [lockUntil] has passed restarts the
    count of failed attempts at 1 and removes the lock; given in the very
    millisecond of [lockUntil] it is counted on top of the earlier failures
    and locks the account for another two hours. *)
Theorem wrong_password_after_lock :
  forall bcrypt_compare (db : Store) (env : Env) (e pw : string) (u : User)
         (l t_lock t_done t_sign : Z),
    ids_unique db = true ->
    findOne (byEmailActive e) db = Some u ->
    lockUntil u = Some l ->
    5 <= attempts u ->
    l <= t_lock <= t_done ->
    bcrypt_compare pw (password u) = Some false ->
    findById (_id u) (fst (login bcrypt_compare db env e pw t_lock t_done t_sign))
    = Some (if l <? t_done
            then set_lockout (Some 1) None u
            else set_lockout (Some (attempts u + 1))
                   (Some (t_done + 2 * 60 * 60 * 1000)) u).
Proof.
  intros cmp db env e pw u l t_lock t_done t_sign Hu F Hl H5 [Ht1 Ht2] Hc.
  assert (isLocked u t_lock = false) as HL.
  { unfold isLocked, date_gt. rewrite Hl. apply Z.ltb_ge. exact Ht1. }
  destruct (login_wrong_password_transition cmp db env e pw u t_lock t_done t_sign
              Hu F HL Ht2 Hc) as [_ R].
  rewrite R. unfold date_lt. rewrite Hl.
  destruct (l <? t_done); [reflexivity|].
  replace (5 <=? attempts u + 1) with true by (symmetry; apply Z.leb_le; lia).
  reflexivity.
Qed.

Lemma wrong_password_after_lock_witness :
  findById 1 (fst (login Demo.bcrypt_compare LockedDemo.db Demo.env
                     "alice@example.com" "wrong" 7200000 7200001 7200001))
  = Some (set_lockout (Some 1) None Demo.alice)
  /\ findById 1 (fst (login Demo.bcrypt_compare LockedDemo.db Demo.env
                        "alice@example.com" "wrong" 7200000 7200000 7200000))
     = Some (set_lockout (Some 6) (Some 14400000) Demo.alice).
Proof.
  split.
  - apply (wrong_password_after_lock Demo.bcrypt_compare LockedDemo.db Demo.env
             "alice@example.com" "wrong" LockedDemo.alice_locked 7200000
             7200000 7200001 7200001 eq_refl eq_refl eq_refl);
      [cbn; lia|lia|reflexivity].
  - apply (wrong_password_after_lock Demo.bcrypt_compare LockedDemo.db Demo.env
             "alice@example.com" "wrong" LockedDemo.alice_locked 7200000
             7200000 7200000 7200000 eq_refl eq_refl eq_refl);
      [cbn; lia|lia|reflexivity].
Defined.

(** ** Default tags *)

Lemma UserTag_same_key_sym (a b : UserTag.Tag) :
  UserTag.same_key a b = UserTag.same_key b a.
Proof. unfold UserTag.same_key. rewrite String.eqb_sym, Nat.eqb_sym. reflexivity. Qed.

Lemma UserTag_same_key_refl (a : UserTag.Tag) : UserTag.same_key a a = true.
Proof. unfold UserTag.same_key. rewrite String.eqb_refl, Nat.eqb_refl. reflexivity. Qed.

Lemma UserTag_insertMany_appends (docs db : list UserTag.Tag) :
  exists added,
    UserTag.insertMany docs db = (db ++ added)%list /\ incl added docs.
Proof.
  revert db. induction docs as [|d rest IH]; intros db.
  - exists []. split; [symmetry; apply app_nil_r|intros x []].
  - cbn [UserTag.insertMany]. destruct (existsb (UserTag.same_key d) db).
    + destruct (IH db) as [added [E I]]. exists added.
      split; [exact E|]. intros x Hx. right. apply I. exact Hx.
    + destruct (IH (db ++ [d])%list) as [added [E I]]. exists (d :: added).
      split; [rewrite E, <- app_assoc; reflexivity|].
      intros x [<-|Hx]; [left; reflexivity|right; apply I; exact Hx].
Qed.

Lemma UserTag_insertMany_keeps (docs db : list UserTag.Tag) (q : UserTag.Tag -> bool) :
  existsb q db = true -> existsb q (UserTag.insertMany docs db) = true.
Proof.
  intros H. destruct (UserTag_insertMany_appends docs db) as [added [E _]].
  rewrite E, existsb_app, H. reflexivity.
Qed.

Lemma UserTag_insertMany_holds (docs db : list UserTag.Tag) (d : UserTag.Tag) :
  In d docs -> existsb (UserTag.same_key d) (UserTag.insertMany docs db) = true.
Proof.
  revert db. induction docs as [|a rest IH]; intros db Hin; [destruct Hin|].
  cbn [UserTag.insertMany]. destruct Hin as [->|Hin].
  - destruct (existsb (UserTag.same_key d) db) eqn:E.
    + apply UserTag_insertMany_keeps. exact E.
    + apply UserTag_insertMany_keeps. rewrite existsb_app. cbn [existsb].
      rewrite UserTag_same_key_refl, orb_true_l, orb_true_r. reflexivity.
  - destruct (existsb (UserTag.same_key a) db); apply IH; exact Hin.
Qed.

Lemma UserTag_insertMany_present (docs db : list UserTag.Tag) :
  (forall d, In d docs -> existsb (UserTag.same_key d) db = true) ->
  UserTag.insertMany docs db = db.
Proof.
  induction docs as [|a rest IH]; intros H; [reflexivity|].
  cbn [UserTag.insertMany]. rewrite (H a (or_introl eq_refl)).
  apply IH. intros d Hd. apply H. right. exact Hd.
Qed.

Lemma UserTag_keys_unique_snoc (db : list UserTag.Tag) (d : UserTag.Tag) :
  UserTag.keys_unique db = true ->
  existsb (UserTag.same_key d) db = false ->
  UserTag.keys_unique (db ++ [d])%list = true.
Proof.
  induction db as [|a rest IH]; intros Hk He; [reflexivity|].
  cbn [UserTag.keys_unique existsb app] in *.
  apply andb_true_iff in Hk. destruct Hk as [Ha Hk].
  apply orb_false_iff in He. destruct He as [Hda He].
  rewrite (IH Hk He), andb_true_r.
  apply negb_true_iff in Ha. apply negb_true_iff.
  rewrite existsb_app, Ha. cbn [existsb].
  rewrite UserTag_same_key_sym, Hda. reflexivity.
Qed.

Lemma UserTag_insertMany_keys_unique (docs db : list UserTag.Tag) :
  UserTag.keys_unique db = true ->
  UserTag.keys_unique (UserTag.insertMany docs db) = true.
Proof.
  revert db. induction docs as [|a rest IH]; intros db Hk; [exact Hk|].
  cbn [UserTag.insertMany]. destruct (existsb (UserTag.same_key a) db) eqn:E.
  - apply IH. exact Hk.
  - apply IH. apply UserTag_keys_unique_snoc; assumption.
Qed.

Lemma UserTag_has_tag_same_key (uid : nat) (n c : string) (b : bool) (k : Z)
      (db : list UserTag.Tag) :
  UserTag.has_tag uid n db
  = existsb (UserTag.same_key (UserTag.mkTag n c uid b k)) db.
Proof.
  unfold UserTag.has_tag. induction db as [|t rest IH]; [reflexivity|].
  cbn [existsb]. rewrite IH. f_equal.
  unfold UserTag.same_key. cbn [UserTag.name UserTag.userId].
  rewrite String.eqb_sym, Nat.eqb_sym. reflexivity.
Qed.

(** X18.  [createDefaultTags] leaves the tags that exist as they are and
    adds default tags of the user after them; afterwards the user has a tag
    of each of the twelve default names; running it a second time changes
    nothing; and the unique index on name and user, when it held before,
    holds after. *)
Theorem createDefaultTags_idempotent :
  forall (uid : nat) (db : list UserTag.Tag),
    (exists added,
        UserTag.createDefaultTags uid db = (db ++ added)%list
        /\ Forall (fun t => UserTag.userId t = uid /\ UserTag.isDefault t = true
                            /\ UserTag.usageCount t = 0) added)
    /\ (forall n, In n (map fst UserTag.defaultTags) ->
                  UserTag.has_tag uid n (UserTag.createDefaultTags uid db) = true)
    /\ UserTag.createDefaultTags uid (UserTag.createDefaultTags uid db)
       = UserTag.createDefaultTags uid db
    /\ (UserTag.keys_unique db = true ->
        UserTag.keys_unique (UserTag.createDefaultTags uid db) = true).
Proof.
  intros uid db. unfold UserTag.createDefaultTags.
  set (docs := map (fun tag => UserTag.mkTag (fst tag) (snd tag) uid true 0)
                 UserTag.defaultTags).
  split; [|split; [|split]].
  - destruct (UserTag_insertMany_appends docs db) as [added [E I]].
    exists added. split; [exact E|].
    apply Forall_forall. intros t Ht. apply I in Ht.
    subst docs. apply in_map_iff in Ht. destruct Ht as [tag [<- _]].
    repeat split; reflexivity.
  - intros n Hn. apply in_map_iff in Hn. destruct Hn as [tag [<- Htag]].
    assert (In (UserTag.mkTag (fst tag) (snd tag) uid true 0) docs) as Hd
      by (subst docs; apply in_map_iff; exists tag; split; [reflexivity|exact Htag]).
    pose proof (UserTag_insertMany_holds docs db _ Hd) as H.
    rewrite <- H. apply UserTag_has_tag_same_key.
  - apply UserTag_insertMany_present. intros d Hd.
    apply UserTag_insertMany_holds. exact Hd.
  - apply UserTag_insertMany_keys_unique.
Qed.
